(** * ndn-cxx, lp::NackHeader: wire codec of the Network NACK header

    Shallow embedding of [ndn-cxx/lp/nack-header.cpp] and of
    [ndn-cxx/lp/nack-header.hpp] (which follows it in the same source
    file, from line 252 on; line numbers below are those of that file),
    together with the part of the generic TLV layer (variable-size
    numbers, [Block], the estimator and the encoding buffer) that those
    two files call.

    Conventions.
    - An octet is a [Z] in [0, 256); a byte range is a [list Z].
    - [uint64_t], [uint32_t] and [int] are [Z] with the conversions
      written out ([to_uint64], [to_uint32], [to_int32]).
    - [size_t] byte counts are [Z]; they are sums of lengths of ranges
      that were written, converted with [to_uint64] where the callee takes
      a [uint64_t].
    - A member function of [NackHeader] is a function of the header's
      state that returns its result together with the state it leaves. *)

From Stdlib Require Import String ZArith Lia Bool List.
Import ListNotations.
Local Open Scope Z_scope.

(** ** Fixed-width integers *)

Definition to_uint64 (n : Z) : Z := n mod 2 ^ 64.
Definition to_uint32 (n : Z) : Z := n mod 2 ^ 32.

(** Conversion to [int] (32 bits, two's complement). *)
Definition to_int32 (n : Z) : Z := (n + 2 ^ 31) mod 2 ^ 32 - 2 ^ 31.

Definition len {A : Type} (l : list A) : Z := Z.of_nat (length l).

(** ** The generic TLV layer *)

Module tlv.

(** Modelled from the spec: [ndn::tlv::Error], the FormatError of section
    7, with the two constructors the header codec calls: [Error(what)] and
    [Error(expectedType, actualType)]. *)
Inductive Error : Type :=
| Error_what (what : string)
| Error_expecting (expectedType : string) (actualType : Z).

(** What a call leaves: a value, a thrown [tlv::Error], or behaviour the
    language leaves undefined (an iterator dereferenced at
    [elements_end()]). *)
Inductive result (A : Type) : Type :=
| Ok (a : A)
| Throw (e : Error)
| Undefined.
Arguments Ok {A} a.
Arguments Throw {A} e.
Arguments Undefined {A}.

Definition bind {A B : Type} (r : result A) (k : A -> result B) : result B :=
  match r with
  | Ok a => k a
  | Throw e => Throw e
  | Undefined => Undefined
  end.

(** Big-endian octets of [n] on [k] octets, and the number they denote. *)
Fixpoint be_bytes (k : nat) (n : Z) : list Z :=
  match k with
  | O => []
  | S k' => be_bytes k' (n / 256) ++ [n mod 256]
  end.

Definition be_value (bs : list Z) : Z :=
  fold_left (fun acc b => acc * 256 + b) bs 0.

(** Modelled from the spec: [tlv::sizeOfVarNumber], the size of the
    variable-size number of section 4.1, which the sources of the header
    use but do not contain: one octet below 253, else a marker octet (253,
    254, 255) followed by 2, 4 or 8 big-endian octets. *)
Definition sizeOfVarNumber (number : Z) : Z :=
  let n := to_uint64 number in
  if n <? 253 then 1
  else if n <=? 65535 then 3
  else if n <=? 4294967295 then 5
  else 9.

(** Modelled from the spec: [tlv::writeVarNumber], the octets of section
    4.1 for a [uint64_t] number. *)
Definition writeVarNumber (number : Z) : list Z :=
  let n := to_uint64 number in
  if n <? 253 then [n]
  else if n <=? 65535 then 253 :: be_bytes 2 n
  else if n <=? 4294967295 then 254 :: be_bytes 4 n
  else 255 :: be_bytes 8 n.

(** Modelled from the spec: [readVarNumber] is the inverse of
    [writeVarNumber]; it fails when octets are missing and, as section 4.1
    requires, when the number is not in its shortest form.  It returns the
    number and the octets that follow it. *)
Definition readVarNumber (bytes : list Z) : result (Z * list Z) :=
  match bytes with
  | [] => Throw (Error_what "Empty buffer during TLV parsing")
  | firstOctet :: rest =>
      if firstOctet <? 253 then Ok (firstOctet, rest)
      else
        let size := if firstOctet =? 253 then 2%nat
                    else if firstOctet =? 254 then 4%nat else 8%nat in
        let least := if firstOctet =? 253 then 253
                     else if firstOctet =? 254 then 65536 else 4294967296 in
        if (length rest <? size)%nat
        then Throw (Error_what "Insufficient data during TLV parsing")
        else
          let number := be_value (firstn size rest) in
          if number <? least
          then Throw (Error_what "Non-canonical number during TLV parsing")
          else Ok (number, skipn size rest)
  end.

(** Modelled from the spec: [tlv::Invalid], the TLV-TYPE of a block
    without content. *)
Definition Invalid : Z := 0.

(** Modelled from the spec: [tlv::readType]; a TLV-TYPE is a variable-size
    number that fits [uint32_t] and is not [tlv::Invalid]. *)
Definition readType (bytes : list Z) : result (Z * list Z) :=
  bind (readVarNumber bytes) (fun '(type, rest) =>
    if (type =? Invalid) || (4294967295 <? type)
    then Throw (Error_what "Illegal TLV-TYPE")
    else Ok (type, rest)).

(** Modelled from the spec: the value of a non-negative-integer TLV field,
    written and read by the helper pair of section 6 that the generic
    codec layer supplies.  It is the NonNegativeInteger of the NDN packet
    format: the shortest of 1, 2, 4 or 8 big-endian octets that holds the
    [uint64_t] number.  [tlv::sizeOfNonNegativeInteger] is its size. *)
Definition sizeOfNonNegativeInteger (integer : Z) : Z :=
  let n := to_uint64 integer in
  if n <=? 255 then 1
  else if n <=? 65535 then 2
  else if n <=? 4294967295 then 4
  else 8.

(** Modelled from the spec: [tlv::writeNonNegativeInteger], the octets of
    that value. *)
Definition writeNonNegativeInteger (integer : Z) : list Z :=
  let n := to_uint64 integer in
  if n <=? 255 then be_bytes 1 n
  else if n <=? 65535 then be_bytes 2 n
  else if n <=? 4294967295 then be_bytes 4 n
  else be_bytes 8 n.

(** Modelled from the spec: [tlv::readNonNegativeInteger] on the octets of
    a value; a value of another size than 1, 2, 4 or 8 is an error. *)
Definition readNonNegativeInteger_bytes (value : list Z) : result Z :=
  match length value with
  | 1%nat | 2%nat | 4%nat | 8%nat => Ok (be_value value)
  | _ => Throw (Error_what "Invalid length for nonNegativeInteger")
  end.

End tlv.

Import tlv.

Notation "x <- c ;; k" := (tlv.bind c (fun x => k))
  (at level 61, c at next level, right associativity).
Notation "' p <- c ;; k" := (tlv.bind c (fun p => k))
  (at level 61, p pattern, c at next level, right associativity).

(** ** Block *)

(** Modelled from the spec: [ndn::Block] (sections 3 and 4.2): the
    TLV-TYPE, the octets of the whole element ([wire()], of [size()]
    octets; empty when the block has no buffer), the octets of the
    TLV-VALUE, and the sub-elements found by [parse()]. *)
#[warnings="-register-all"]
Inductive Block : Type := mkBlock {
  Block_type : Z;
  Block_wire : list Z;
  Block_value : list Z;
  Block_elements : list Block
}.

(** Modelled from the spec: [Block()], also what [reset()] leaves. *)
Definition Block_empty : Block := mkBlock tlv.Invalid [] [] [].

(** Modelled from the spec: [Block::hasWire()], true once the block holds
    octets. *)
Definition hasWire (b : Block) : bool :=
  match Block_wire b with [] => false | _ :: _ => true end.

(** Modelled from the spec: [Block::elements_size()]. *)
Definition elements_size (b : Block) : Z := len (Block_elements b).

(** Modelled from the spec: [Block::parse()] (section 4.2) walks the
    TLV-VALUE and cuts it into sub-elements; each needs a readable type
    and length, and a length that stays inside the parent's value.  A
    sub-element is a view: its own sub-elements are not parsed.  [fuel]
    bounds the number of sub-elements; [None] means it ran out. *)
Fixpoint parse_elements (fuel : nat) (bytes : list Z)
  : option (result (list Block)) :=
  match bytes with
  | [] => Some (Ok [])
  | _ :: _ =>
      match fuel with
      | O => None
      | S fuel' =>
          match readType bytes with
          | Ok (type, pos) =>
              match readVarNumber pos with
              | Ok (length, value_begin) =>
                  if len value_begin <? length
                  then Some (Throw (Error_what
                    "TLV-LENGTH of sub-element exceeds TLV-VALUE boundary of parent block"))
                  else
                    let value := firstn (Z.to_nat length) value_begin in
                    let sub_end := skipn (Z.to_nat length) value_begin in
                    let wire :=
                      firstn (List.length bytes - List.length sub_end) bytes in
                    match parse_elements fuel' sub_end with
                    | Some (Ok elements) =>
                        Some (Ok (mkBlock type wire value [] :: elements))
                    | other => other
                    end
              | Throw e => Some (Throw e)
              | Undefined => Some Undefined
              end
          | Throw e => Some (Throw e)
          | Undefined => Some Undefined
          end
      end
  end.

(** Modelled from the spec: [Block::parse()]; it does nothing when the
    sub-elements are there already or the value is empty.  Every
    sub-element takes at least one octet, so the length of the value is
    fuel enough ([parse_elements_total]) and the last case is never
    reached. *)
Definition Block_parse (b : Block) : result Block :=
  if negb (elements_size b =? 0) || (len (Block_value b) =? 0) then Ok b
  else
    match parse_elements (length (Block_value b)) (Block_value b) with
    | Some r =>
        elements <- r ;;
        Ok (mkBlock (Block_type b) (Block_wire b) (Block_value b) elements)
    | None => Undefined
    end.

(** Modelled from the spec: the [Block] that [EncodingBuffer::block()]
    makes of the octets written: it reads the outer type and length, and
    the length must be that of the rest of the buffer. *)
Definition Block_fromBuffer (buffer : list Z) : result Block :=
  '(type, pos) <- readType buffer ;;
  '(length, value) <- readVarNumber pos ;;
  if negb (length =? len value)
  then Throw (Error_what "TLV-LENGTH does not match buffer size")
  else Ok (mkBlock type buffer value []).

(** Modelled from the spec: [readNonNegativeInteger(block)] of section 6,
    the number in the value of [block]. *)
Definition readNonNegativeInteger (block : Block) : result Z :=
  readNonNegativeInteger_bytes (Block_value block).

(** ** The two sinks of the encoding template *)

Module encoding.

(** Modelled from the spec: [EncodingImpl<TAG>], the interface the two
    sinks of section 4.3 share.  Every member prepends in front of what
    the sink holds and returns the number of octets it accounts for. *)
Class EncodingImpl (E : Type) : Type := {
  prependByteArray : list Z -> E -> Z * E;
  prependVarNumber : Z -> E -> Z * E;
  prependNonNegativeInteger : Z -> E -> Z * E;
  prependByteArrayBlock : Z -> list Z -> E -> Z * E;
  prependBlock : Block -> E -> Z * E
}.

(** Modelled from the spec: [EncodingEstimator] (section 4.3, pass 1)
    holds nothing and answers every request with a size. *)
Definition Estimator : Type := unit.

(** Modelled from the spec: [Estimator::prependByteArray]. *)
Definition Estimator_prependByteArray (array : list Z) (e : Estimator)
  : Z * Estimator := (len array, e).

(** Modelled from the spec: [Estimator::prependVarNumber]. *)
Definition Estimator_prependVarNumber (varNumber : Z) (e : Estimator)
  : Z * Estimator := (sizeOfVarNumber varNumber, e).

(** Modelled from the spec: [Estimator::prependNonNegativeInteger]. *)
Definition Estimator_prependNonNegativeInteger (integer : Z) (e : Estimator)
  : Z * Estimator := (sizeOfNonNegativeInteger integer, e).

(** Modelled from the spec: [Estimator::prependByteArrayBlock]: the size
    of the array, of its length and of the type. *)
Definition Estimator_prependByteArrayBlock (type : Z) (array : list Z)
  (e : Estimator) : Z * Estimator :=
  let totalLength := len array in
  let '(n, e) := Estimator_prependVarNumber (len array) e in
  let totalLength := totalLength + n in
  let '(n, e) := Estimator_prependVarNumber type e in
  let totalLength := totalLength + n in
  (totalLength, e).

(** Modelled from the spec: [Estimator::prependBlock]: the size of the
    block's octets when it has them, else of the element made of its type
    and value. *)
Definition Estimator_prependBlock (block : Block) (e : Estimator)
  : Z * Estimator :=
  if hasWire block then (len (Block_wire block), e)
  else Estimator_prependByteArrayBlock (Block_type block) (Block_value block) e.

(** Modelled from the spec: [EncodingImpl<EstimatorTag>]. *)
#[export] Instance EncodingEstimator : EncodingImpl Estimator := {
  prependByteArray := Estimator_prependByteArray;
  prependVarNumber := Estimator_prependVarNumber;
  prependNonNegativeInteger := Estimator_prependNonNegativeInteger;
  prependByteArrayBlock := Estimator_prependByteArrayBlock;
  prependBlock := Estimator_prependBlock
}.

(** Modelled from the spec: [EncodingBuffer] (section 4.3, pass 2) holds
    the octets written so far, from [begin()] to [end()]; a prepend puts
    its octets in front of them.  The reserve given at construction only
    decides when the storage is reallocated, which no result depends on. *)
Definition Encoder : Type := list Z.

(** Modelled from the spec: [EncodingBuffer(totalReserve, reserveFromBack)],
    a buffer with nothing written. *)
Definition EncodingBuffer_new (totalReserve reserveFromBack : Z) : Encoder := [].

(** Modelled from the spec: [Encoder::prependByteArray]. *)
Definition Encoder_prependByteArray (array : list Z) (e : Encoder)
  : Z * Encoder := (len array, array ++ e).

(** Modelled from the spec: [Encoder::prependVarNumber]: by magnitude, one
    octet, or the 2, 4 or 8 octets and then the marker in front. *)
Definition Encoder_prependVarNumber (varNumber : Z) (e : Encoder)
  : Z * Encoder :=
  let n := to_uint64 varNumber in
  if n <? 253 then (1, n :: e)
  else if n <=? 65535 then (3, 253 :: be_bytes 2 n ++ e)
  else if n <=? 4294967295 then (5, 254 :: be_bytes 4 n ++ e)
  else (9, 255 :: be_bytes 8 n ++ e).

(** Modelled from the spec: [Encoder::prependNonNegativeInteger]. *)
Definition Encoder_prependNonNegativeInteger (integer : Z) (e : Encoder)
  : Z * Encoder :=
  let n := to_uint64 integer in
  if n <=? 255 then (1, be_bytes 1 n ++ e)
  else if n <=? 65535 then (2, be_bytes 2 n ++ e)
  else if n <=? 4294967295 then (4, be_bytes 4 n ++ e)
  else (8, be_bytes 8 n ++ e).

(** Modelled from the spec: [Encoder::prependByteArrayBlock]: the array,
    then its length, then the type. *)
Definition Encoder_prependByteArrayBlock (type : Z) (array : list Z)
  (e : Encoder) : Z * Encoder :=
  let '(totalLength, e) := Encoder_prependByteArray array e in
  let '(n, e) := Encoder_prependVarNumber (len array) e in
  let totalLength := totalLength + n in
  let '(n, e) := Encoder_prependVarNumber type e in
  let totalLength := totalLength + n in
  (totalLength, e).

(** Modelled from the spec: [Encoder::prependBlock]. *)
Definition Encoder_prependBlock (block : Block) (e : Encoder)
  : Z * Encoder :=
  if hasWire block then Encoder_prependByteArray (Block_wire block) e
  else Encoder_prependByteArrayBlock (Block_type block) (Block_value block) e.

(** Modelled from the spec: [EncodingImpl<EncoderTag>]. *)
#[export] Instance EncodingBuffer : EncodingImpl Encoder := {
  prependByteArray := Encoder_prependByteArray;
  prependVarNumber := Encoder_prependVarNumber;
  prependNonNegativeInteger := Encoder_prependNonNegativeInteger;
  prependByteArrayBlock := Encoder_prependByteArrayBlock;
  prependBlock := Encoder_prependBlock
}.

(** Modelled from the spec: [EncodingBuffer::block()]. *)
Definition Encoder_block (e : Encoder) : result Block := Block_fromBuffer e.

(** Modelled from the spec: [prependNonNegativeIntegerBlock(encoder, type,
    value)] of section 6: the value, then its length, then the type. *)
Definition prependNonNegativeIntegerBlock {E : Type} `{EncodingImpl E}
  (type value : Z) (encoder : E) : Z * E :=
  let '(valueLength, encoder) := prependNonNegativeInteger value encoder in
  let totalLength := valueLength in
  let '(n, encoder) := prependVarNumber valueLength encoder in
  let totalLength := totalLength + n in
  let '(n, encoder) := prependVarNumber type encoder in
  let totalLength := totalLength + n in
  (totalLength, encoder).

End encoding.

Import encoding.

(** ** lp::NackReason and lp::NackHeader *)

Module lp.

(** [enum class NackReason], lines 292-303: the underlying type is [int],
    and a value made by [static_cast] holds any [int], also one that is
    no enumerator. *)
Record NackReason : Type := NackReason_of { to_underlying : Z }.

Definition DDOS_HINT_CHANGE_NOTICE : NackReason := NackReason_of (-150).
Definition DDOS_FAKE_INTEREST : NackReason := NackReason_of (-100).
Definition DDOS_VALID_INTEREST_OVERLOAD : NackReason := NackReason_of (-50).
Definition DDOS_RESET_RATE : NackReason := NackReason_of (-30).
Definition DDOS_REPORT_VALID : NackReason := NackReason_of (-10).
Definition NONE : NackReason := NackReason_of 0.
Definition CONGESTION : NackReason := NackReason_of 50.
Definition DUPLICATE : NackReason := NackReason_of 100.
Definition NO_ROUTE : NackReason := NackReason_of 150.

Definition NackReason_eqb (x y : NackReason) : bool :=
  to_underlying x =? to_underlying y.

(** [static_cast<NackReason>(uint64_t)], line 139: the number is converted
    to the underlying [int], which keeps its low 32 bits as a two's
    complement number; and [static_cast<uint32_t>(NackReason)], line 93. *)
Definition NackReason_from_uint64 (v : Z) : NackReason := NackReason_of (to_int32 v).
Definition NackReason_to_uint32 (r : NackReason) : Z := to_uint32 (to_underlying r).

(** [operator<<(std::ostream&, NackReason)], lines 31-47: the text put on
    the stream. *)
Definition NackReason_print (reason : NackReason) : string :=
  if NackReason_eqb reason DDOS_FAKE_INTEREST then "Fake-interest-ddos"
  else if NackReason_eqb reason CONGESTION then "Congestion"
  else if NackReason_eqb reason DUPLICATE then "Duplicate"
  else if NackReason_eqb reason NO_ROUTE then "NoRoute"
  else "None".

(** [isLessSevere], lines 49-62. *)
Definition isLessSevere (x y : NackReason) : bool :=
  if NackReason_eqb x NONE then false
  else if NackReason_eqb y NONE then true
  else to_underlying x <? to_underlying y.

(** The TLV-TYPE numbers the codec names ([tlv::Nack], [tlv::NackReason],
    [tlv::NackId], [tlv::NackPrefixLength], [tlv::NackFakeNameList] of
    lp/tlv.hpp and [ndn::tlv::Name]); their declarations are not among the
    sources, so the codec takes them as given. *)
Class TlvTypes : Type := {
  tlv_Nack : Z;
  tlv_NackReason : Z;
  tlv_NackId : Z;
  tlv_NackPrefixLength : Z;
  tlv_NackFakeNameList : Z;
  tlv_Name : Z
}.

(** The [Name] collaborator, as far as the header uses it:
    [Name::wireEncode()] and the constructor [Name(const Block&)], which
    may throw. *)
Class NameCodec (Name : Type) : Type := {
  Name_wireEncode : Name -> Block;
  Name_fromBlock : Block -> result Name
}.

Section NackHeader.

Context {T : TlvTypes} {Name : Type} {NC : NameCodec Name}.

(** The data members of [class NackHeader], lines 362-379. *)
Record NackHeader : Type := mkNackHeader {
  m_reason : NackReason;
  m_nackId : Z;
  m_prefixLen : Z;
  m_fakeInterestNames : list Name;
  m_wire : Block
}.

Definition set_m_reason (reason : NackReason) (h : NackHeader) : NackHeader :=
  mkNackHeader reason (m_nackId h) (m_prefixLen h) (m_fakeInterestNames h) (m_wire h).
Definition set_m_nackId (id : Z) (h : NackHeader) : NackHeader :=
  mkNackHeader (m_reason h) id (m_prefixLen h) (m_fakeInterestNames h) (m_wire h).
Definition set_m_prefixLen (prefix : Z) (h : NackHeader) : NackHeader :=
  mkNackHeader (m_reason h) (m_nackId h) prefix (m_fakeInterestNames h) (m_wire h).
Definition set_m_fakeInterestNames (names : list Name) (h : NackHeader) : NackHeader :=
  mkNackHeader (m_reason h) (m_nackId h) (m_prefixLen h) names (m_wire h).
Definition set_m_wire (wire : Block) (h : NackHeader) : NackHeader :=
  mkNackHeader (m_reason h) (m_nackId h) (m_prefixLen h) (m_fakeInterestNames h) wire.

(** [NackHeader::NackHeader()], lines 64-67: only [m_reason] is
    initialised; [m_nackId] and [m_prefixLen] start with whatever the
    storage holds, here the two arguments. *)
Definition NackHeader_new (indeterminate_nackId indeterminate_prefixLen : Z)
  : NackHeader :=
  mkNackHeader NONE indeterminate_nackId indeterminate_prefixLen [] Block_empty.

(** [NackHeader::getId()], lines 211-214. *)
Definition getId (h : NackHeader) : Z := m_nackId h.

(** *** Encoding *)

(** The loop of lines 82-85, over the names from last to first. *)
Fixpoint prependNames {E : Type} `{EncodingImpl E}
  (rit : list Name) (length : Z) (encoder : E) : Z * E :=
  match rit with
  | [] => (length, encoder)
  | it :: rit' =>
      let '(n, encoder) := prependBlock (Name_wireEncode it) encoder in
      prependNames rit' (length + n) encoder
  end.

(** [template<encoding::Tag TAG> NackHeader::wireEncode(EncodingImpl<TAG>&)],
    lines 74-97. *)
Definition wireEncode_impl {E : Type} `{EncodingImpl E}
  (h : NackHeader) (encoder : E) : Z * E :=
  let length := 0 in
  let '(length, encoder) :=
    if 0 <? len (m_fakeInterestNames h)
    then prependNames (rev (m_fakeInterestNames h)) length encoder
    else (length, encoder) in
  let '(n, encoder) := prependVarNumber length encoder in
  let length := length + n in
  let '(n, encoder) := prependVarNumber tlv_NackFakeNameList encoder in
  let length := length + n in
  let '(n, encoder) :=
    prependNonNegativeIntegerBlock tlv_NackPrefixLength (m_prefixLen h) encoder in
  let length := length + n in
  let '(n, encoder) :=
    prependNonNegativeIntegerBlock tlv_NackId (getId h) encoder in
  let length := length + n in
  let '(n, encoder) :=
    prependNonNegativeIntegerBlock tlv_NackReason
      (NackReason_to_uint32 (m_reason h)) encoder in
  let length := length + n in
  let '(n, encoder) := prependVarNumber length encoder in
  let length := length + n in
  let '(n, encoder) := prependVarNumber tlv_Nack encoder in
  let length := length + n in
  (length, encoder).

(** *** Member functions that change the header or may throw *)

Definition Method (A : Type) : Type := NackHeader -> result A * NackHeader.

Definition ret {A : Type} (a : A) : Method A := fun h => (Ok a, h).

Definition mbind {A B : Type} (m : Method A) (k : A -> Method B) : Method B :=
  fun h =>
    match m h with
    | (Ok a, h') => k a h'
    | (Throw e, h') => (Throw e, h')
    | (Undefined, h') => (Undefined, h')
    end.

Definition throw {A : Type} (e : Error) : Method A := fun h => (Throw e, h).
Definition lift {A : Type} (r : result A) : Method A := fun h => (r, h).
Definition gets {A : Type} (f : NackHeader -> A) : Method A := fun h => (Ok (f h), h).
Definition modify (f : NackHeader -> NackHeader) : Method unit := fun h => (Ok tt, f h).

Declare Scope method_scope.
#[local] Notation "x <- c ;; k" := (mbind c (fun x => k))
  (at level 61, c at next level, right associativity) : method_scope.
#[local] Notation "c ;; k" := (mbind c (fun _ => k))
  (at level 61, right associativity) : method_scope.
Local Open Scope method_scope.

(** [const Block& NackHeader::wireEncode() const], lines 101-118.
    [m_wire] is [mutable]: the call stores the block it made. *)
Definition wireEncode : Method Block :=
  fun h =>
    if hasWire (m_wire h) then (Ok (m_wire h), h)
    else
      let estimator : Estimator := tt in
      let '(estimatedSize, _) := wireEncode_impl h estimator in
      let buffer := EncodingBuffer_new estimatedSize 0 in
      let '(_, buffer) := wireEncode_impl h buffer in
      (block <- lift (Encoder_block buffer) ;;
       modify (set_m_wire block) ;;
       gets m_wire) h.

(** [*it] for the iterator at position [it] of [m_wire]'s sub-elements;
    at [elements_end()] the behaviour is undefined. *)
Definition deref (it : nat) : Method Block :=
  fun h =>
    match nth_error (Block_elements (m_wire h)) it with
    | Some b => (Ok b, h)
    | None => (Undefined, h)
    end.

(** The list [l] with [x] at position [i]. *)
Fixpoint list_set {A : Type} (l : list A) (i : nat) (x : A) : list A :=
  match l, i with
  | [], _ => []
  | _ :: l', O => x :: l'
  | y :: l', S i' => y :: list_set l' i' x
  end.

(** The block [b] with its sub-element at position [i] replaced by [x]. *)
Definition Block_set_element (b : Block) (i : nat) (x : Block) : Block :=
  mkBlock (Block_type b) (Block_wire b) (Block_value b)
          (list_set (Block_elements b) i x).

(** [m_wire.parse()], line 129. *)
Definition m_wire_parse : Method unit :=
  w <- gets m_wire ;;
  w' <- lift (Block_parse w) ;;
  modify (set_m_wire w').

(** [it->parse()], line 169: the sub-element is parsed where it lies,
    inside [m_wire]. *)
Definition parse_at (it : nat) : Method unit :=
  b <- deref it ;;
  b' <- lift (Block_parse b) ;;
  modify (fun h => set_m_wire (Block_set_element (m_wire h) it b') h).

(** The loop of lines 173-178; [tempIt] is what lies between the iterator
    and [it->elements_end()]. *)
Fixpoint names_loop (tempIt : list Block) : Method unit :=
  match tempIt with
  | [] => ret tt
  | b :: tempIt' =>
      if Block_type b =? tlv_Name then
        fakeName <- lift (Name_fromBlock b) ;;
        modify (fun h =>
          set_m_fakeInterestNames (m_fakeInterestNames h ++ [fakeName]) h) ;;
        names_loop tempIt'
      else ret tt
  end.

(** [void NackHeader::wireDecode(const Block& wire)], lines 120-186. *)
Definition wireDecode (wire : Block) : Method unit :=
  if negb (Block_type wire =? tlv_Nack)
  then throw (Error_expecting "Nack" (Block_type wire))
  else
    modify (set_m_wire wire) ;;
    m_wire_parse ;;
    modify (set_m_reason NONE) ;;
    modify (set_m_fakeInterestNames []) ;;
    size <- gets (fun h => elements_size (m_wire h)) ;;
    if 0 <? size then
      let it := O in
      b <- deref it ;;
      it <- (if Block_type b =? tlv_NackReason then
               v <- lift (readNonNegativeInteger b) ;;
               modify (set_m_reason (NackReason_from_uint64 v)) ;;
               ret (S it)
             else throw (Error_expecting "NackReason" (Block_type b))) ;;
      b <- deref it ;;
      it <- (if Block_type b =? tlv_NackId then
               v <- lift (readNonNegativeInteger b) ;;
               modify (set_m_nackId v) ;;
               ret (S it)
             else throw (Error_expecting "NackId expected" (Block_type b))) ;;
      b <- deref it ;;
      it <- (if Block_type b =? tlv_NackPrefixLength then
               v <- lift (readNonNegativeInteger b) ;;
               modify (set_m_prefixLen v) ;;
               ret (S it)
             else throw (Error_what "expecting prefix length block")) ;;
      b <- deref it ;;
      if Block_type b =? tlv_NackFakeNameList then
        parse_at it ;;
        b <- deref it ;;
        if negb (elements_size b =? 0)
        then names_loop (Block_elements b)
        else ret tt
      else throw (Error_what "expecting NackFakeNameList block")
    else ret tt.

(** [NackHeader::NackHeader(const Block&)], lines 69-72: the members are
    not initialised before [wireDecode] runs. *)
Definition NackHeader_fromBlock
  (indeterminate_reason : NackReason)
  (indeterminate_nackId indeterminate_prefixLen : Z) (block : Block)
  : result unit * NackHeader :=
  wireDecode block
    (mkNackHeader indeterminate_reason indeterminate_nackId
                  indeterminate_prefixLen [] Block_empty).

(** *** Accessors, lines 188-248 *)

(** [NackHeader::getReason()], lines 188-201. *)
Definition getReason (h : NackHeader) : NackReason :=
  let r := m_reason h in
  if NackReason_eqb r DDOS_FAKE_INTEREST
     || NackReason_eqb r CONGESTION
     || NackReason_eqb r DUPLICATE
     || NackReason_eqb r NO_ROUTE
  then r
  else NONE.

(** The setters, lines 203-248: each stores its argument and resets
    [m_wire]; the getters return the member. *)
Definition setReason (reason : NackReason) (h : NackHeader) : NackHeader :=
  set_m_wire Block_empty (set_m_reason reason h).

Definition setId (id : Z) (h : NackHeader) : NackHeader :=
  set_m_wire Block_empty (set_m_nackId id h).

Definition getPrefix (h : NackHeader) : Z := m_prefixLen h.

Definition setPrefix (prefix : Z) (h : NackHeader) : NackHeader :=
  set_m_wire Block_empty (set_m_prefixLen prefix h).

Definition getNames (h : NackHeader) : list Name := m_fakeInterestNames h.

Definition setNames (names : list Name) (h : NackHeader) : NackHeader :=
  set_m_wire Block_empty (set_m_fakeInterestNames names h).

End NackHeader.

Arguments NackHeader Name : clear implicits.

End lp.

Import lp.

(** ** A concrete setting, to run the codec *)

(** TLV-TYPE numbers: [Nack] and [NackReason] are the NDNLPv2 numbers and
    [Name] is the number of the NDN packet format; the three others stand
    for the numbers of lp/tlv.hpp.  The theorems below hold for every
    assignment that satisfies their hypotheses. *)
Definition lp_tlv : TlvTypes := {|
  tlv_Nack := 800;
  tlv_NackReason := 801;
  tlv_NackId := 802;
  tlv_NackPrefixLength := 803;
  tlv_NackFakeNameList := 804;
  tlv_Name := 7
|}.

(** The octets of a TLV element in its shortest form. *)
Definition tlv_element (type : Z) (value : list Z) : list Z :=
  writeVarNumber type ++ writeVarNumber (len value) ++ value.

(** A [Name] made of generic name components only, each given by the
    octets of its value: the element of type 7 whose sub-elements have
    type 8. *)
Module GenericName.

Definition Name : Type := list (list Z).

Definition GenericNameComponent : Z := 8.

Definition wireEncode (name : Name) : Block :=
  let value := concat (map (tlv_element GenericNameComponent) name) in
  mkBlock 7 (tlv_element 7 value) value [].

Definition fromBlock (wire : Block) : result Name :=
  tlv.bind (Block_parse wire) (fun wire' =>
    Ok (map Block_value (Block_elements wire'))).

Definition codec : NameCodec Name := {|
  Name_wireEncode := wireEncode;
  Name_fromBlock := fromBlock
|}.

End GenericName.

(** The octets of a string, and the names [/a/b] and [/c]. *)
Definition name_a_b : GenericName.Name := [[97]; [98]].
Definition name_c : GenericName.Name := [[99]].

(** ** The wire format, written forward *)

Section WireFormat.

Context {T : TlvTypes} {Name : Type} {NC : NameCodec Name}.

(** The octets [prependBlock] puts in front for a block. *)
Definition Block_octets (b : Block) : list Z :=
  if hasWire b then Block_wire b
  else tlv_element (Block_type b) (Block_value b).

Definition names_octets (names : list Name) : list Z :=
  concat (map (fun name => Block_octets (Name_wireEncode name)) names).

(** The element of spec section 6 for the field values of [h]: reason,
    id, prefix length and the name list, in that order, inside the NACK
    element. *)
Definition NackHeader_value (h : NackHeader Name) : list Z :=
  tlv_element tlv_NackReason
    (writeNonNegativeInteger (NackReason_to_uint32 (m_reason h)))
  ++ tlv_element tlv_NackId (writeNonNegativeInteger (m_nackId h))
  ++ tlv_element tlv_NackPrefixLength (writeNonNegativeInteger (m_prefixLen h))
  ++ tlv_element tlv_NackFakeNameList (names_octets (m_fakeInterestNames h)).

Definition NackHeader_octets (h : NackHeader Name) : list Z :=
  tlv_element tlv_Nack (NackHeader_value h).

(** The size the estimator pass returns (line 110). *)
Definition estimatedSize (h : NackHeader Name) : Z :=
  fst (wireEncode_impl (E := Estimator) h tt).

(** The octets the buffer pass leaves in a fresh buffer (lines 112-113). *)
Definition encodedOctets (h : NackHeader Name) : list Z :=
  snd (wireEncode_impl (E := Encoder) h (EncodingBuffer_new (estimatedSize h) 0)).

Definition valid_type (type : Z) : Prop := 1 <= type <= 4294967295.

(** Every TLV-TYPE number is a [uint32_t] other than [tlv::Invalid]. *)
Definition TlvTypes_ok : Prop :=
  valid_type tlv_Nack /\ valid_type tlv_NackReason /\ valid_type tlv_NackId
  /\ valid_type tlv_NackPrefixLength /\ valid_type tlv_NackFakeNameList
  /\ valid_type tlv_Name.

Definition is_uint64 (n : Z) : Prop := 0 <= n < 2 ^ 64.
Definition is_int32 (n : Z) : Prop := - 2 ^ 31 <= n < 2 ^ 31.

(** A name the [Name] codec handles: [wireEncode()] gives an element of
    type [tlv::Name] in shortest form, and the constructor reads the name
    back from that element. *)
Definition Name_wire_ok (name : Name) : Prop :=
  let b := Name_wireEncode name in
  Block_wire b = tlv_element tlv_Name (Block_value b)
  /\ len (Block_value b) < 2 ^ 64
  /\ Name_fromBlock (mkBlock tlv_Name (Block_wire b) (Block_value b) []) = Ok name.

(** Field values a header can be given: a reason that is an [int],
    [uint64_t] id and prefix length, names the [Name] codec handles, and
    an encoding whose size is a [size_t]. *)
Definition valid_fields (h : NackHeader Name) : Prop :=
  is_int32 (to_underlying (m_reason h))
  /\ is_uint64 (m_nackId h)
  /\ is_uint64 (m_prefixLen h)
  /\ Forall Name_wire_ok (m_fakeInterestNames h)
  /\ estimatedSize h < 2 ^ 64.

(** The invariant of the cached block: when present, its octets are the
    encoding of the current field values. *)
Definition wire_inv (h : NackHeader Name) : Prop :=
  hasWire (m_wire h) = true -> Block_wire (m_wire h) = encodedOctets h.

Definition same_fields (h h' : NackHeader Name) : Prop :=
  m_reason h' = m_reason h /\ m_nackId h' = m_nackId h
  /\ m_prefixLen h' = m_prefixLen h
  /\ m_fakeInterestNames h' = m_fakeInterestNames h.

(** The sub-element [Block::parse()] makes of an element in shortest form. *)
Definition sub_element (type : Z) (value : list Z) : Block :=
  mkBlock type (tlv_element type value) value [].

(** The longest run of [tlv::Name] elements at the front. *)
Fixpoint leading_names (elements : list Block) : list Block :=
  match elements with
  | [] => []
  | b :: rest =>
      if Block_type b =? tlv_Name then b :: leading_names rest else []
  end.

(** The names of a list of blocks, in order; the first constructor that
    throws decides. *)
Fixpoint Names_fromBlocks (blocks : list Block) : result (list Name) :=
  match blocks with
  | [] => Ok []
  | b :: rest =>
      tlv.bind (Name_fromBlock b) (fun name =>
      tlv.bind (Names_fromBlocks rest) (fun names => Ok (name :: names)))
  end.

(** The sub-element [parse()] makes of the encoding of a name. *)
Definition name_element (name : Name) : Block :=
  mkBlock tlv_Name (Block_wire (Name_wireEncode name))
          (Block_value (Name_wireEncode name)) [].

End WireFormat.

(** ** Concrete headers and elements *)

Module Examples.

#[export] Existing Instance lp_tlv.
#[export] Existing Instance GenericName.codec.

Definition fresh_header : NackHeader GenericName.Name := NackHeader_new 0 0.

(** Reason, id 70000, prefix length 3 and the names [/a/b], [/c], each
    given through its setter. *)
Definition sample_header : NackHeader GenericName.Name :=
  setNames [name_a_b; name_c]
    (setPrefix 3 (setId 70000 (setReason DDOS_FAKE_INTEREST fresh_header))).

(** A NACK element without sub-elements. *)
Definition empty_Nack : Block := sub_element 800 [].

(** [sample_header] after it decoded [empty_Nack]: id 70000 and prefix
    length 3 as before, reason [NONE], no names, and [empty_Nack] as the
    cached block. *)
Definition stale_header : NackHeader GenericName.Name :=
  snd (wireDecode empty_Nack sample_header).

(** An element whose outer type is not [tlv::Nack]. *)
Definition not_a_Nack : Block := sub_element 801 [50].

(** Reason 7 (no enumerator), id 1, prefix length 2, no name. *)
Definition unknown_reason_Nack : Block :=
  sub_element 800
    (tlv_element 801 [7] ++ tlv_element 802 [1] ++ tlv_element 803 [2]
     ++ tlv_element 804 []).

(** A NACK element whose only sub-element is the reason field. *)
Definition reason_only_Nack : Block :=
  sub_element 800 (tlv_element 801 [50]).

(** The id field in front of the reason field. *)
Definition id_first_Nack : Block :=
  sub_element 800
    (tlv_element 802 [1] ++ tlv_element 801 [50] ++ tlv_element 803 [2]
     ++ tlv_element 804 []).

(** A name list that holds [/a/b], then an element of type 9, then [/c]. *)
Definition mixed_list_Nack : Block :=
  sub_element 800
    (tlv_element 801 [50] ++ tlv_element 802 [1] ++ tlv_element 803 [2]
     ++ tlv_element 804
          (Block_wire (GenericName.wireEncode name_a_b)
           ++ tlv_element 9 [0]
           ++ Block_wire (GenericName.wireEncode name_c))).

(** The four fields of [unknown_reason_Nack] followed by a fifth
    sub-element, of type 805. *)
Definition five_children_Nack : Block :=
  sub_element 800
    (tlv_element 801 [7] ++ tlv_element 802 [1] ++ tlv_element 803 [2]
     ++ tlv_element 804 [] ++ tlv_element 805 [9]).

(** The reason field holds 2^32 + 50 on eight octets. *)
Definition wide_reason_Nack : Block :=
  sub_element 800
    (tlv_element 801 (be_bytes 8 4294967346) ++ tlv_element 802 [1]
     ++ tlv_element 803 [2] ++ tlv_element 804 []).

(** The reason field followed by the prefix length: the id is missing. *)
Definition id_missing_Nack : Block :=
  sub_element 800
    (tlv_element 801 [50] ++ tlv_element 803 [2] ++ tlv_element 804 []).

(** The field values of [sample_header], given in another order to a
    header that held other values. *)
Definition sample_header_again : NackHeader GenericName.Name :=
  setReason DDOS_FAKE_INTEREST
    (setId 70000 (setPrefix 3 (setNames [name_a_b; name_c]
       (NackHeader_new 5 6)))).

End Examples.

(** ** Proof steps for the member functions *)

(** Reduce the field updates and projections of a header. *)
Ltac header_simpl :=
  unfold set_m_wire, set_m_reason, set_m_fakeInterestNames, set_m_nackId,
    set_m_prefixLen;
  cbn [m_wire m_reason m_nackId m_prefixLen m_fakeInterestNames].

Ltac header_simpl_in H :=
  unfold set_m_wire, set_m_reason, set_m_fakeInterestNames, set_m_nackId,
    set_m_prefixLen in H;
  cbn [m_wire m_reason m_nackId m_prefixLen m_fakeInterestNames] in H.

(** Run [wireDecode] up to the first sub-element, given the outer type
    [Ht], the parsed block [Hp] and its sub-elements [He]. *)
Ltac decode_prelude Ht Hp He :=
  unfold wireDecode; rewrite Ht, Z.eqb_refl; cbn [negb];
  unfold m_wire_parse, parse_at, deref, mbind, modify, gets, lift, ret, throw;
  header_simpl; rewrite Hp; header_simpl;
  unfold elements_size at 1; rewrite He;
  match goal with
  | |- context [0 <? len (?x :: ?l)] =>
      replace (0 <? len (x :: l)) with true
        by (symmetry; apply Z.ltb_lt; unfold len; simpl; lia)
  end;
  header_simpl; rewrite He; cbn [nth_error].

Ltac decode_field Htype Hvalue He :=
  rewrite Htype, Z.eqb_refl, Hvalue; header_simpl; rewrite He; cbn [nth_error].

Ltac wrong_type H :=
  match type of H with
  | ?a <> ?b => replace (a =? b) with false by (symmetry; apply Z.eqb_neq; exact H)
  end.

(** * Properties *)

(** ** Big-endian octets and variable-size numbers *)

Module tlv_facts.

Lemma be_bytes_length (k : nat) (n : Z) : length (be_bytes k n) = k.
Proof.
  revert n; induction k as [|k IH]; intros n; simpl; [reflexivity|].
  rewrite length_app, IH; simpl; lia.
Qed.

Lemma be_value_snoc (bs : list Z) (b : Z) :
  be_value (bs ++ [b]) = be_value bs * 256 + b.
Proof. unfold be_value; rewrite fold_left_app; reflexivity. Qed.

Lemma be_value_be_bytes (k : nat) (n : Z) :
  0 <= n < 256 ^ Z.of_nat k -> be_value (be_bytes k n) = n.
Proof.
  revert n; induction k as [|k IH]; intros n Hn.
  - simpl in *. unfold be_value; simpl. lia.
  - cbn [be_bytes]. rewrite be_value_snoc, IH.
    + pose proof (Z.div_mod n 256). lia.
    + rewrite Nat2Z.inj_succ, Z.pow_succ_r in Hn by lia.
      split; [apply Z.div_pos; lia | apply Z.div_lt_upper_bound; lia].
Qed.

Lemma firstn_be_bytes (k : nat) (n : Z) (rest : list Z) :
  firstn k (be_bytes k n ++ rest) = be_bytes k n.
Proof.
  rewrite firstn_app, be_bytes_length, Nat.sub_diag; simpl.
  rewrite app_nil_r. apply firstn_all2. rewrite be_bytes_length; lia.
Qed.

Lemma skipn_be_bytes (k : nat) (n : Z) (rest : list Z) :
  skipn k (be_bytes k n ++ rest) = rest.
Proof.
  rewrite skipn_app, be_bytes_length, Nat.sub_diag; simpl.
  rewrite skipn_all2 by (rewrite be_bytes_length; lia). reflexivity.
Qed.

Lemma to_uint64_small (n : Z) : 0 <= n < 2 ^ 64 -> to_uint64 n = n.
Proof. intros Hn; unfold to_uint64; apply Z.mod_small; exact Hn. Qed.

Lemma len_app {A : Type} (l1 l2 : list A) : len (l1 ++ l2) = len l1 + len l2.
Proof. unfold len; rewrite length_app; lia. Qed.

Lemma len_nonneg {A : Type} (l : list A) : 0 <= len l.
Proof. unfold len; lia. Qed.

Lemma len_be_bytes (k : nat) (n : Z) : len (be_bytes k n) = Z.of_nat k.
Proof. unfold len; rewrite be_bytes_length; reflexivity. Qed.

Lemma writeVarNumber_len (n : Z) : len (writeVarNumber n) = sizeOfVarNumber n.
Proof.
  unfold writeVarNumber, sizeOfVarNumber.
  repeat match goal with |- context [if ?c then _ else _] => destruct c end;
    unfold len; simpl; rewrite ?be_bytes_length; reflexivity.
Qed.

Lemma sizeOfVarNumber_bounds (n : Z) : 1 <= sizeOfVarNumber n <= 9.
Proof.
  unfold sizeOfVarNumber.
  repeat match goal with |- context [if ?c then _ else _] => destruct c end; lia.
Qed.

Lemma writeNonNegativeInteger_len (n : Z) :
  len (writeNonNegativeInteger n) = sizeOfNonNegativeInteger n.
Proof.
  unfold writeNonNegativeInteger, sizeOfNonNegativeInteger.
  repeat match goal with |- context [if ?c then _ else _] => destruct c end;
    rewrite len_be_bytes; reflexivity.
Qed.

Lemma sizeOfNonNegativeInteger_bounds (n : Z) :
  1 <= sizeOfNonNegativeInteger n <= 8.
Proof.
  unfold sizeOfNonNegativeInteger.
  repeat match goal with |- context [if ?c then _ else _] => destruct c end; lia.
Qed.

(** Reading back what [writeVarNumber] wrote. *)
Lemma readVarNumber_writeVarNumber (n : Z) (rest : list Z) :
  0 <= n < 2 ^ 64 ->
  readVarNumber (writeVarNumber n ++ rest) = Ok (n, rest).
Proof.
  intros Hn. unfold writeVarNumber. rewrite (to_uint64_small n Hn).
  destruct (n <? 253) eqn:H1.
  - simpl. rewrite H1. reflexivity.
  - apply Z.ltb_ge in H1.
    destruct (n <=? 65535) eqn:H2; [|destruct (n <=? 4294967295) eqn:H3].
    + apply Z.leb_le in H2.
      rewrite <- app_comm_cons. unfold readVarNumber.
      change (253 <? 253) with false. change (253 =? 253) with true. cbv iota.
      replace (length (be_bytes 2 n ++ rest) <? 2)%nat with false
        by (symmetry; apply Nat.ltb_ge; rewrite length_app, be_bytes_length; lia).
      rewrite firstn_be_bytes, skipn_be_bytes, be_value_be_bytes
        by (change (256 ^ Z.of_nat 2) with 65536; lia).
      replace (n <? 253) with false by (symmetry; apply Z.ltb_ge; lia).
      reflexivity.
    + apply Z.leb_gt in H2. apply Z.leb_le in H3.
      rewrite <- app_comm_cons. unfold readVarNumber.
      change (254 <? 253) with false. change (254 =? 253) with false.
      change (254 =? 254) with true. cbv iota.
      replace (length (be_bytes 4 n ++ rest) <? 4)%nat with false
        by (symmetry; apply Nat.ltb_ge; rewrite length_app, be_bytes_length; lia).
      rewrite firstn_be_bytes, skipn_be_bytes, be_value_be_bytes
        by (change (256 ^ Z.of_nat 4) with 4294967296; lia).
      replace (n <? 65536) with false by (symmetry; apply Z.ltb_ge; lia).
      reflexivity.
    + apply Z.leb_gt in H2. apply Z.leb_gt in H3.
      rewrite <- app_comm_cons. unfold readVarNumber.
      change (255 <? 253) with false. change (255 =? 253) with false.
      change (255 =? 254) with false. cbv iota.
      replace (length (be_bytes 8 n ++ rest) <? 8)%nat with false
        by (symmetry; apply Nat.ltb_ge; rewrite length_app, be_bytes_length; lia).
      rewrite firstn_be_bytes, skipn_be_bytes, be_value_be_bytes
        by (change (256 ^ Z.of_nat 8) with (2 ^ 64); lia).
      replace (n <? 4294967296) with false by (symmetry; apply Z.ltb_ge; lia).
      reflexivity.
Qed.

Lemma readType_writeVarNumber (type : Z) (rest : list Z) :
  1 <= type <= 4294967295 ->
  readType (writeVarNumber type ++ rest) = Ok (type, rest).
Proof.
  intros Ht. unfold readType.
  rewrite readVarNumber_writeVarNumber by lia. simpl.
  replace (type =? Invalid) with false
    by (symmetry; apply Z.eqb_neq; unfold Invalid; lia).
  replace (4294967295 <? type) with false by (symmetry; apply Z.ltb_ge; lia).
  reflexivity.
Qed.

(** A number that was read took at least one octet. *)
Lemma readVarNumber_consumes (bytes rest : list Z) (n : Z) :
  readVarNumber bytes = Ok (n, rest) -> (length rest < length bytes)%nat.
Proof.
  unfold readVarNumber. destruct bytes as [|b bs]; [discriminate|].
  destruct (b <? 253).
  - intros H; inversion H; subst; simpl; lia.
  - match goal with |- context [(length bs <? ?s)%nat] =>
      destruct (length bs <? s)%nat; [discriminate|] end.
    match goal with |- context [if ?c then _ else _] => destruct c end;
      [discriminate|].
    intros H; inversion H; subst. rewrite length_skipn. simpl; lia.
Qed.

Lemma readType_consumes (bytes rest : list Z) (t : Z) :
  readType bytes = Ok (t, rest) -> (length rest < length bytes)%nat.
Proof.
  unfold readType. destruct (readVarNumber bytes) as [[n r]| |] eqn:E;
    simpl; try discriminate.
  destruct ((n =? Invalid) || (4294967295 <? n)); [discriminate|].
  intros H; inversion H; subst. eapply readVarNumber_consumes; eassumption.
Qed.

End tlv_facts.

(** ** Parsing sub-elements *)

Module Block_facts.

Import tlv_facts.

(** The length of the value is fuel enough: [parse_elements] never runs
    out, so [Block_parse] is total. *)
Lemma parse_elements_total (fuel : nat) (bytes : list Z) :
  (length bytes <= fuel)%nat -> parse_elements fuel bytes <> None.
Proof.
  revert bytes; induction fuel as [|fuel IH]; intros bytes Hlen.
  - destruct bytes; [discriminate | simpl in Hlen; lia].
  - destruct bytes as [|b bs]; [discriminate|].
    cbn [parse_elements].
    destruct (readType (b :: bs)) as [[type pos]| |] eqn:Et; try discriminate.
    destruct (readVarNumber pos) as [[length value_begin]| |] eqn:El;
      try discriminate.
    destruct (len value_begin <? length); [discriminate|].
    apply readType_consumes in Et. apply readVarNumber_consumes in El.
    specialize (IH (skipn (Z.to_nat length) value_begin)).
    assert (Hs : (List.length (skipn (Z.to_nat length) value_begin) <= fuel)%nat).
    { rewrite length_skipn. simpl in *. lia. }
    specialize (IH Hs).
    destruct (parse_elements fuel (skipn (Z.to_nat length) value_begin))
      as [[l| |]|]; try discriminate. congruence.
Qed.

(** More fuel does not change a result. *)
Lemma parse_elements_mono (fuel fuel' : nat) (bytes : list Z) r :
  parse_elements fuel bytes = Some r -> (fuel <= fuel')%nat ->
  parse_elements fuel' bytes = Some r.
Proof.
  revert fuel' bytes r; induction fuel as [|fuel IH]; intros fuel' bytes r H Hle.
  - destruct bytes; [|discriminate]. destruct fuel'; exact H.
  - destruct fuel' as [|fuel']; [lia|].
    destruct bytes as [|b bs]; [exact H|].
    cbn [parse_elements] in *.
    destruct (readType (b :: bs)) as [[type pos]| |]; try exact H.
    destruct (readVarNumber pos) as [[length value_begin]| |]; try exact H.
    destruct (len value_begin <? length); [exact H|].
    destruct (parse_elements fuel (skipn (Z.to_nat length) value_begin))
      as [r0|] eqn:E.
    + rewrite (IH fuel' _ r0 E) by lia. exact H.
    + discriminate.
Qed.

Lemma tlv_element_len (type : Z) (value : list Z) :
  len (tlv_element type value)
  = sizeOfVarNumber type + sizeOfVarNumber (len value) + len value.
Proof.
  unfold tlv_element. rewrite !len_app, !writeVarNumber_len. lia.
Qed.

Lemma tlv_element_nonempty (type : Z) (value rest : list Z) :
  exists b bs, tlv_element type value ++ rest = b :: bs.
Proof.
  destruct (tlv_element type value) as [|b bs] eqn:E.
  - pose proof (tlv_element_len type value) as Hl. rewrite E in Hl.
    pose proof (sizeOfVarNumber_bounds type).
    pose proof (sizeOfVarNumber_bounds (len value)).
    pose proof (len_nonneg value). unfold len in Hl at 1. simpl in Hl. lia.
  - exists b, (bs ++ rest). reflexivity.
Qed.

(** One element in its shortest form, followed by [rest], parses to that
    element followed by what [rest] parses to. *)
Lemma parse_elements_step (fuel : nat) (type : Z) (value rest : list Z) :
  1 <= type <= 4294967295 -> len value < 2 ^ 64 ->
  parse_elements (S fuel) (tlv_element type value ++ rest)
  = match parse_elements fuel rest with
    | Some (Ok elements) =>
        Some (Ok (mkBlock type (tlv_element type value) value [] :: elements))
    | other => other
    end.
Proof.
  intros Ht Hv.
  destruct (tlv_element_nonempty type value rest) as (b & bs & E).
  cbn [parse_elements]. rewrite E. rewrite <- E.
  unfold tlv_element at 1. rewrite <- !app_assoc.
  rewrite readType_writeVarNumber by exact Ht.
  rewrite readVarNumber_writeVarNumber by (pose proof (len_nonneg value); lia).
  replace (len (value ++ rest) <? len value) with false
    by (symmetry; apply Z.ltb_ge; rewrite len_app;
        pose proof (len_nonneg rest); lia).
  assert (Hf : firstn (Z.to_nat (len value)) (value ++ rest) = value).
  { unfold len. rewrite Nat2Z.id, firstn_app, Nat.sub_diag, firstn_all.
    simpl. apply app_nil_r. }
  assert (Hs : skipn (Z.to_nat (len value)) (value ++ rest) = rest).
  { unfold len. rewrite Nat2Z.id, skipn_app, Nat.sub_diag, skipn_all.
    reflexivity. }
  rewrite Hf, Hs.
  replace (length (tlv_element type value ++ rest) - length rest)%nat
    with (length (tlv_element type value)) by (rewrite length_app; lia).
  rewrite firstn_app, Nat.sub_diag, firstn_all. simpl firstn. rewrite app_nil_r.
  reflexivity.
Qed.

(** The same for a whole sequence of elements. *)
Lemma parse_elements_map {A : Type} (type : A -> Z) (value : A -> list Z)
  (l : list A) :
  Forall (fun a => 1 <= type a <= 4294967295 /\ len (value a) < 2 ^ 64) l ->
  parse_elements (length l)
    (concat (map (fun a => tlv_element (type a) (value a)) l))
  = Some (Ok (map (fun a =>
      mkBlock (type a) (tlv_element (type a) (value a)) (value a) []) l)).
Proof.
  induction 1 as [|a l [Ht Hv] _ IH]; [reflexivity|].
  cbn [map concat length]. rewrite parse_elements_step by assumption.
  rewrite IH. reflexivity.
Qed.

Lemma Block_parse_elements (type : Z) (wire value : list Z)
  (elements : list Block) (fuel : nat) :
  parse_elements fuel value = Some (Ok elements) ->
  Block_parse (mkBlock type wire value [])
  = Ok (mkBlock type wire value elements).
Proof.
  intros H. unfold Block_parse, elements_size. cbn [Block_elements Block_value].
  change (negb (len (@nil Block) =? 0)) with false. cbn [orb].
  destruct (len value =? 0) eqn:E.
  - apply Z.eqb_eq in E. destruct value; [|unfold len in E; simpl in E; lia].
    destruct fuel; simpl in H; inversion H; reflexivity.
  - destruct (parse_elements (length value) value) as [r|] eqn:P.
    + destruct (Nat.le_ge_cases fuel (length value)) as [Hle|Hle].
      * rewrite (parse_elements_mono _ _ _ _ H Hle) in P.
        inversion P; subst. reflexivity.
      * rewrite (parse_elements_mono _ _ _ _ P Hle) in H.
        inversion H; subst. reflexivity.
    + exfalso. eapply parse_elements_total; [|exact P]. lia.
Qed.

Lemma readVarNumber_defined (bytes : list Z) : readVarNumber bytes <> Undefined.
Proof.
  unfold readVarNumber. destruct bytes as [|b bs]; [discriminate|].
  repeat match goal with
         | |- context [if ?c then _ else _] => destruct c
         end; discriminate.
Qed.

Lemma readType_defined (bytes : list Z) : readType bytes <> Undefined.
Proof.
  unfold readType. pose proof (readVarNumber_defined bytes) as H.
  destruct (readVarNumber bytes) as [[n r]| |]; simpl;
    [destruct ((n =? Invalid) || (4294967295 <? n))| |]; congruence.
Qed.

Lemma parse_elements_defined (fuel : nat) (bytes : list Z) :
  parse_elements fuel bytes <> Some Undefined.
Proof.
  revert bytes; induction fuel as [|fuel IH]; intros bytes;
    destruct bytes as [|b bs]; cbn [parse_elements]; try discriminate.
  pose proof (readType_defined (b :: bs)) as Ht.
  destruct (readType (b :: bs)) as [[type pos]| |]; try congruence.
  pose proof (readVarNumber_defined pos) as Hl.
  destruct (readVarNumber pos) as [[length vb]| |]; try congruence.
  destruct (len vb <? length); [discriminate|].
  specialize (IH (skipn (Z.to_nat length) vb)).
  destruct (parse_elements fuel (skipn (Z.to_nat length) vb)) as [[l| |]|];
    congruence.
Qed.

(** [Block_parse] always answers: it returns the parsed block or throws. *)
Lemma Block_parse_total (b : Block) :
  (exists b', Block_parse b = Ok b') \/ (exists e, Block_parse b = Throw e).
Proof.
  unfold Block_parse.
  destruct (negb (elements_size b =? 0) || (len (Block_value b) =? 0));
    [left; eauto|].
  destruct (parse_elements (length (Block_value b)) (Block_value b))
    as [[l|e|]|] eqn:P; simpl; eauto.
  - exfalso. eapply parse_elements_defined; exact P.
  - exfalso. eapply parse_elements_total; [|exact P]. lia.
Qed.

Lemma Block_fromBuffer_tlv_element (type : Z) (value : list Z) :
  1 <= type <= 4294967295 -> len value < 2 ^ 64 ->
  Block_fromBuffer (tlv_element type value)
  = Ok (mkBlock type (tlv_element type value) value []).
Proof.
  intros Ht Hv. unfold Block_fromBuffer. unfold tlv_element at 1.
  rewrite readType_writeVarNumber by exact Ht. cbn [tlv.bind].
  rewrite <- (app_nil_r value) at 1. rewrite <- (app_nil_r value) at 1.
  rewrite <- app_assoc.
  rewrite readVarNumber_writeVarNumber
    by (pose proof (len_nonneg value); rewrite !app_nil_r; lia).
  cbn [tlv.bind]. rewrite !app_nil_r, Z.eqb_refl. reflexivity.
Qed.

Lemma readNonNegativeInteger_write (type : Z) (wire : list Z)
  (elements : list Block) (n : Z) :
  0 <= n < 2 ^ 64 ->
  readNonNegativeInteger
    (mkBlock type wire (writeNonNegativeInteger n) elements) = Ok n.
Proof.
  intros Hn. unfold readNonNegativeInteger, readNonNegativeInteger_bytes.
  cbn [Block_value]. unfold writeNonNegativeInteger.
  rewrite (to_uint64_small n Hn).
  destruct (n <=? 255) eqn:H1;
    [|destruct (n <=? 65535) eqn:H2; [|destruct (n <=? 4294967295) eqn:H3]];
    rewrite be_bytes_length, be_value_be_bytes; try reflexivity;
    repeat match goal with
           | H : (_ <=? _) = true |- _ => apply Z.leb_le in H
           | H : (_ <=? _) = false |- _ => apply Z.leb_gt in H
           end.
  - change (256 ^ Z.of_nat 1) with 256; lia.
  - change (256 ^ Z.of_nat 2) with 65536; lia.
  - change (256 ^ Z.of_nat 4) with 4294967296; lia.
  - change (256 ^ Z.of_nat 8) with (2 ^ 64); lia.
Qed.

(** The codec of generic names reads back every name it wrote. *)
Lemma GenericName_fromBlock_wireEncode (name : GenericName.Name) :
  Forall (fun component => len component < 2 ^ 64) name ->
  GenericName.fromBlock
    (mkBlock 7 (Block_wire (GenericName.wireEncode name))
       (Block_value (GenericName.wireEncode name)) [])
  = Ok name.
Proof.
  intros Hc. unfold GenericName.fromBlock, GenericName.wireEncode.
  cbn [Block_wire Block_value].
  rewrite (Block_parse_elements _ _ _
             (map (fun component =>
                     mkBlock GenericName.GenericNameComponent
                       (tlv_element GenericName.GenericNameComponent component)
                       component []) name)
             (length name)).
  - cbn [tlv.bind Block_elements]. rewrite map_map. cbn [Block_value].
    rewrite map_id. reflexivity.
  - apply (parse_elements_map (fun _ => GenericName.GenericNameComponent)
             (fun component => component)).
    rewrite Forall_forall in *. intros component Hin. split.
    + unfold GenericName.GenericNameComponent. lia.
    + apply Hc. exact Hin.
Qed.

End Block_facts.

(** ** The two passes of the encoder *)

Module encoding_facts.

Import tlv_facts Block_facts.

Lemma Encoder_prependVarNumber_eq (n : Z) (e : Encoder) :
  prependVarNumber (E := Encoder) n e
  = (sizeOfVarNumber n, writeVarNumber n ++ e).
Proof.
  cbn [prependVarNumber EncodingBuffer].
  unfold Encoder_prependVarNumber, sizeOfVarNumber, writeVarNumber.
  repeat match goal with |- context [if ?c then _ else _] => destruct c end;
    reflexivity.
Qed.

Lemma Encoder_prependNonNegativeInteger_eq (n : Z) (e : Encoder) :
  prependNonNegativeInteger (E := Encoder) n e
  = (sizeOfNonNegativeInteger n, writeNonNegativeInteger n ++ e).
Proof.
  cbn [prependNonNegativeInteger EncodingBuffer].
  unfold Encoder_prependNonNegativeInteger, sizeOfNonNegativeInteger,
    writeNonNegativeInteger.
  repeat match goal with |- context [if ?c then _ else _] => destruct c end;
    reflexivity.
Qed.

Lemma Encoder_prependNonNegativeIntegerBlock (type value : Z) (e : Encoder) :
  prependNonNegativeIntegerBlock (E := Encoder) type value e
  = (len (tlv_element type (writeNonNegativeInteger value)),
     tlv_element type (writeNonNegativeInteger value) ++ e).
Proof.
  unfold prependNonNegativeIntegerBlock.
  rewrite Encoder_prependNonNegativeInteger_eq, !Encoder_prependVarNumber_eq.
  rewrite tlv_element_len, writeNonNegativeInteger_len.
  unfold tlv_element. rewrite writeNonNegativeInteger_len, <- !app_assoc.
  f_equal. lia.
Qed.

Lemma Estimator_prependNonNegativeIntegerBlock (type value : Z) (e : Estimator) :
  prependNonNegativeIntegerBlock (E := Estimator) type value e
  = (len (tlv_element type (writeNonNegativeInteger value)), e).
Proof.
  unfold prependNonNegativeIntegerBlock.
  cbn [prependNonNegativeInteger prependVarNumber EncodingEstimator].
  unfold Estimator_prependNonNegativeInteger, Estimator_prependVarNumber.
  rewrite tlv_element_len, writeNonNegativeInteger_len. f_equal. lia.
Qed.

Section Names.

Context {T : TlvTypes} {Name : Type} {NC : NameCodec Name}.

Lemma Encoder_prependBlock_eq (b : Block) (e : Encoder) :
  prependBlock (E := Encoder) b e = (len (Block_octets b), Block_octets b ++ e).
Proof.
  cbn [prependBlock EncodingBuffer]. unfold Encoder_prependBlock, Block_octets.
  destruct (hasWire b); [reflexivity|].
  unfold Encoder_prependByteArrayBlock, Encoder_prependByteArray.
  pose proof (Encoder_prependVarNumber_eq) as Hv.
  cbn [prependVarNumber EncodingBuffer] in Hv. rewrite !Hv.
  rewrite tlv_element_len. unfold tlv_element. rewrite <- !app_assoc.
  f_equal. lia.
Qed.

Lemma Estimator_prependBlock_eq (b : Block) (e : Estimator) :
  prependBlock (E := Estimator) b e = (len (Block_octets b), e).
Proof.
  cbn [prependBlock EncodingEstimator]. unfold Estimator_prependBlock, Block_octets.
  destruct (hasWire b); [reflexivity|].
  unfold Estimator_prependByteArrayBlock, Estimator_prependVarNumber.
  rewrite tlv_element_len. f_equal. lia.
Qed.

Lemma names_octets_snoc (names : list Name) (name : Name) :
  names_octets (names ++ [name])
  = names_octets names ++ Block_octets (Name_wireEncode name).
Proof.
  unfold names_octets. rewrite map_app, concat_app. simpl.
  rewrite app_nil_r. reflexivity.
Qed.

Lemma Encoder_prependNames (rit : list Name) (length : Z) (e : Encoder) :
  prependNames (E := Encoder) rit length e
  = (length + len (names_octets (rev rit)), names_octets (rev rit) ++ e).
Proof.
  revert length e; induction rit as [|it rit IH]; intros length e.
  - simpl. unfold names_octets, len; simpl. f_equal. lia.
  - cbn [prependNames rev]. rewrite Encoder_prependBlock_eq, IH.
    rewrite names_octets_snoc, len_app, <- app_assoc. f_equal. lia.
Qed.

Lemma Estimator_prependNames (rit : list Name) (length : Z) (e : Estimator) :
  prependNames (E := Estimator) rit length e
  = (length + len (names_octets (rev rit)), e).
Proof.
  revert length e; induction rit as [|it rit IH]; intros length e.
  - simpl. unfold names_octets, len; simpl. f_equal. lia.
  - cbn [prependNames rev]. rewrite Estimator_prependBlock_eq, IH.
    rewrite names_octets_snoc, len_app. f_equal. lia.
Qed.

(** The buffer pass writes the element of section 6 and returns its size. *)
Lemma Encoder_wireEncode_impl (h : NackHeader Name) (e : Encoder) :
  wireEncode_impl (E := Encoder) h e
  = (len (NackHeader_octets h), NackHeader_octets h ++ e).
Proof.
  unfold wireEncode_impl, getId.
  assert (Hn : (if 0 <? len (m_fakeInterestNames h)
                then prependNames (E := Encoder) (rev (m_fakeInterestNames h)) 0 e
                else (0, e))
               = (len (names_octets (m_fakeInterestNames h)),
                  names_octets (m_fakeInterestNames h) ++ e)).
  { destruct (m_fakeInterestNames h) as [|n ns] eqn:E.
    - reflexivity.
    - replace (0 <? len (n :: ns)) with true
        by (symmetry; apply Z.ltb_lt; unfold len; simpl; lia).
      rewrite Encoder_prependNames, rev_involutive. reflexivity. }
  rewrite Hn. clear Hn.
  rewrite !Encoder_prependVarNumber_eq, !Encoder_prependNonNegativeIntegerBlock.
  rewrite !Encoder_prependVarNumber_eq.
  set (names := names_octets (m_fakeInterestNames h)).
  assert (Hl : writeVarNumber tlv_NackFakeNameList
               ++ writeVarNumber (len names) ++ names ++ e
               = tlv_element tlv_NackFakeNameList names ++ e).
  { unfold tlv_element. rewrite <- !app_assoc. reflexivity. }
  rewrite Hl.
  assert (Hsz : len names + sizeOfVarNumber (len names)
                + sizeOfVarNumber tlv_NackFakeNameList
                = len (tlv_element tlv_NackFakeNameList names)).
  { rewrite tlv_element_len. lia. }
  rewrite Hsz.
  assert (Hv : len (tlv_element tlv_NackFakeNameList names)
               + len (tlv_element tlv_NackPrefixLength
                        (writeNonNegativeInteger (m_prefixLen h)))
               + len (tlv_element tlv_NackId
                        (writeNonNegativeInteger (m_nackId h)))
               + len (tlv_element tlv_NackReason
                        (writeNonNegativeInteger (NackReason_to_uint32 (m_reason h))))
               = len (NackHeader_value h)).
  { unfold NackHeader_value. fold names. rewrite !len_app. lia. }
  rewrite Hv.
  f_equal.
  - unfold NackHeader_octets. rewrite tlv_element_len. lia.
  - unfold NackHeader_octets. unfold tlv_element at 5.
    rewrite <- !app_assoc. do 2 f_equal.
    unfold NackHeader_value. fold names. rewrite <- !app_assoc. reflexivity.
Qed.

(** The estimator pass returns the size of the same element. *)
Lemma Estimator_wireEncode_impl (h : NackHeader Name) (e : Estimator) :
  wireEncode_impl (E := Estimator) h e = (len (NackHeader_octets h), e).
Proof.
  unfold wireEncode_impl, getId.
  assert (Hn : (if 0 <? len (m_fakeInterestNames h)
                then prependNames (E := Estimator) (rev (m_fakeInterestNames h)) 0 e
                else (0, e))
               = (len (names_octets (m_fakeInterestNames h)), e)).
  { destruct (m_fakeInterestNames h) as [|n ns] eqn:E.
    - reflexivity.
    - replace (0 <? len (n :: ns)) with true
        by (symmetry; apply Z.ltb_lt; unfold len; simpl; lia).
      rewrite Estimator_prependNames, rev_involutive. reflexivity. }
  rewrite Hn. clear Hn.
  cbn [prependVarNumber EncodingEstimator]. unfold Estimator_prependVarNumber.
  rewrite !Estimator_prependNonNegativeIntegerBlock.
  set (names := names_octets (m_fakeInterestNames h)).
  assert (Hv : len names + sizeOfVarNumber (len names)
               + sizeOfVarNumber tlv_NackFakeNameList
               + len (tlv_element tlv_NackPrefixLength
                        (writeNonNegativeInteger (m_prefixLen h)))
               + len (tlv_element tlv_NackId
                        (writeNonNegativeInteger (m_nackId h)))
               + len (tlv_element tlv_NackReason
                        (writeNonNegativeInteger (NackReason_to_uint32 (m_reason h))))
               = len (NackHeader_value h)).
  { unfold NackHeader_value. fold names. rewrite !len_app.
    rewrite (tlv_element_len tlv_NackFakeNameList). lia. }
  rewrite Hv. unfold NackHeader_octets. rewrite tlv_element_len.
  f_equal. lia.
Qed.

End Names.

End encoding_facts.

(** ** Decoding *)

Module decode_facts.

Import tlv_facts Block_facts encoding_facts.

Section Decode.

Context {T : TlvTypes} {Name : Type} {NC : NameCodec Name}.

(** The loop appends the names of the leading [tlv::Name] elements and
    ignores what follows them. *)
Lemma names_loop_leading (elements : list Block) (names : list Name)
  (g : NackHeader Name) :
  Names_fromBlocks (leading_names elements) = Ok names ->
  names_loop elements g
  = (Ok tt, set_m_fakeInterestNames (m_fakeInterestNames g ++ names) g).
Proof.
  revert names g; induction elements as [|b rest IH]; intros names g H.
  - simpl in H. inversion H; subst. simpl. unfold ret.
    rewrite app_nil_r. destruct g; reflexivity.
  - cbn [names_loop leading_names] in *.
    destruct (Block_type b =? tlv_Name).
    + cbn [Names_fromBlocks] in H.
      destruct (Name_fromBlock b) as [name| |] eqn:En; try discriminate.
      cbn [tlv.bind] in H.
      destruct (Names_fromBlocks (leading_names rest)) as [ns| |] eqn:Er;
        try discriminate.
      cbn [tlv.bind] in H. inversion H; subst.
      unfold mbind, lift, modify.
      rewrite (IH ns _ eq_refl). unfold set_m_fakeInterestNames.
      cbn [m_fakeInterestNames m_reason m_nackId m_prefixLen m_wire].
      rewrite <- app_assoc. reflexivity.
    + simpl in H. inversion H; subst. unfold ret.
      rewrite app_nil_r. destruct g; reflexivity.
Qed.

(** What [wireDecode] leaves for a NACK element whose first four
    sub-elements are the four fields. *)
Lemma wireDecode_fields (wire w' r i p l l' : Block) (rest : list Block)
  (vr vi vp : Z) (names : list Name) (g : NackHeader Name) :
  Block_type wire = tlv_Nack ->
  Block_parse wire = Ok w' ->
  Block_elements w' = r :: i :: p :: l :: rest ->
  Block_type r = tlv_NackReason -> readNonNegativeInteger r = Ok vr ->
  Block_type i = tlv_NackId -> readNonNegativeInteger i = Ok vi ->
  Block_type p = tlv_NackPrefixLength -> readNonNegativeInteger p = Ok vp ->
  Block_type l = tlv_NackFakeNameList -> Block_parse l = Ok l' ->
  Names_fromBlocks (leading_names (Block_elements l')) = Ok names ->
  wireDecode wire g
  = (Ok tt, mkNackHeader (NackReason_from_uint64 vr) vi vp names
                         (Block_set_element w' 3 l')).
Proof.
  intros Ht Hp He Hr Hvr Hi Hvi Hpl Hvp Hl Hlp Hn.
  unfold wireDecode. rewrite Ht, Z.eqb_refl. cbn [negb].
  unfold m_wire_parse, parse_at, deref, mbind, modify, gets, lift, ret, throw.
  header_simpl. rewrite Hp. header_simpl.
  unfold elements_size at 1. rewrite He.
  replace (0 <? len (r :: i :: p :: l :: rest)) with true
    by (symmetry; apply Z.ltb_lt; unfold len; simpl; lia).
  header_simpl. rewrite He. cbn [nth_error].
  rewrite Hr, Z.eqb_refl, Hvr. header_simpl. rewrite He. cbn [nth_error].
  rewrite Hi, Z.eqb_refl, Hvi. header_simpl. rewrite He. cbn [nth_error].
  rewrite Hpl, Z.eqb_refl, Hvp. header_simpl. rewrite He. cbn [nth_error].
  rewrite Hl, Z.eqb_refl. header_simpl. rewrite He. cbn [nth_error].
  rewrite Hlp. header_simpl.
  unfold Block_set_element. cbn [Block_elements].
  rewrite He. cbn [list_set nth_error].
  destruct (negb (elements_size l' =? 0)) eqn:Ez.
  - rewrite (names_loop_leading _ names _ Hn). header_simpl. reflexivity.
  - apply negb_false_iff, Z.eqb_eq in Ez. unfold elements_size in Ez.
    destruct (Block_elements l') as [|x xs]; [|unfold len in Ez; simpl in Ez; lia].
    simpl in Hn. inversion Hn; subst. reflexivity.
Qed.

Lemma estimatedSize_eq (h : NackHeader Name) :
  estimatedSize h = len (NackHeader_octets h).
Proof. unfold estimatedSize. rewrite Estimator_wireEncode_impl. reflexivity. Qed.

Lemma encodedOctets_eq (h : NackHeader Name) :
  encodedOctets h = NackHeader_octets h.
Proof.
  unfold encodedOctets, EncodingBuffer_new.
  rewrite Encoder_wireEncode_impl. simpl. apply app_nil_r.
Qed.

Lemma NackHeader_value_bound (h : NackHeader Name) :
  estimatedSize h < 2 ^ 64 ->
  len (NackHeader_value h) < 2 ^ 64
  /\ len (names_octets (m_fakeInterestNames h)) < 2 ^ 64.
Proof.
  rewrite estimatedSize_eq. unfold NackHeader_octets.
  rewrite tlv_element_len.
  pose proof (sizeOfVarNumber_bounds (len (NackHeader_value h))) as Hv.
  revert Hv. generalize (sizeOfVarNumber (len (NackHeader_value h))).
  intros outer Hv. unfold NackHeader_value.
  rewrite !len_app, !tlv_element_len.
  pose proof (sizeOfVarNumber_bounds tlv_Nack).
  pose proof (sizeOfVarNumber_bounds tlv_NackReason).
  pose proof (sizeOfVarNumber_bounds tlv_NackId).
  pose proof (sizeOfVarNumber_bounds tlv_NackPrefixLength).
  pose proof (sizeOfVarNumber_bounds tlv_NackFakeNameList).
  repeat match goal with
         | |- context [sizeOfVarNumber (len ?l)] =>
             lazymatch goal with
             | _ : 1 <= sizeOfVarNumber (len l) <= 9 |- _ => fail
             | _ => pose proof (sizeOfVarNumber_bounds (len l))
             end
         end.
  repeat match goal with
         | |- context [len ?l] =>
             lazymatch goal with
             | _ : 0 <= len l |- _ => fail
             | _ => pose proof (len_nonneg l)
             end
         end.
  lia.
Qed.

(** A header without a cached block: both passes run, and the block made
    of the buffer is the NACK element of the field values. *)
Lemma wireEncode_fresh (h : NackHeader Name) :
  valid_type tlv_Nack -> estimatedSize h < 2 ^ 64 ->
  hasWire (m_wire h) = false ->
  wireEncode h
  = (Ok (sub_element tlv_Nack (NackHeader_value h)),
     set_m_wire (sub_element tlv_Nack (NackHeader_value h)) h).
Proof.
  intros Ht Hs Hw. unfold wireEncode. rewrite Hw.
  rewrite Estimator_wireEncode_impl.
  unfold EncodingBuffer_new. rewrite Encoder_wireEncode_impl.
  unfold Encoder_block. rewrite app_nil_r. unfold NackHeader_octets.
  rewrite Block_fromBuffer_tlv_element
    by (try exact Ht; apply NackHeader_value_bound; exact Hs).
  reflexivity.
Qed.

Lemma writeNonNegativeInteger_bound (n : Z) :
  len (writeNonNegativeInteger n) < 2 ^ 64.
Proof.
  rewrite writeNonNegativeInteger_len.
  pose proof (sizeOfNonNegativeInteger_bounds n). lia.
Qed.

(** [parse()] finds the four fields in the element the encoder wrote. *)
Lemma Block_parse_NackHeader (h : NackHeader Name) :
  TlvTypes_ok -> estimatedSize h < 2 ^ 64 ->
  Block_parse (sub_element tlv_Nack (NackHeader_value h))
  = Ok (mkBlock tlv_Nack (NackHeader_octets h) (NackHeader_value h)
      [ sub_element tlv_NackReason
          (writeNonNegativeInteger (NackReason_to_uint32 (m_reason h)));
        sub_element tlv_NackId (writeNonNegativeInteger (m_nackId h));
        sub_element tlv_NackPrefixLength
          (writeNonNegativeInteger (m_prefixLen h));
        sub_element tlv_NackFakeNameList
          (names_octets (m_fakeInterestNames h)) ]).
Proof.
  intros (Hn & Hr & Hi & Hp & Hl & _) Hs.
  apply (Block_parse_elements _ _ _ _ 4).
  unfold NackHeader_value.
  rewrite <- (app_nil_r (tlv_element tlv_NackFakeNameList _)).
  rewrite !parse_elements_step;
    try assumption; try apply writeNonNegativeInteger_bound.
  - reflexivity.
  - apply NackHeader_value_bound; exact Hs.
Qed.

Lemma Name_wire_ok_octets (name : Name) :
  Name_wire_ok name ->
  Block_octets (Name_wireEncode name)
  = tlv_element tlv_Name (Block_value (Name_wireEncode name)).
Proof.
  intros (Hw & _ & _). unfold Block_octets, hasWire. rewrite Hw.
  destruct (tlv_element_nonempty tlv_Name
              (Block_value (Name_wireEncode name)) []) as (b & bs & E).
  rewrite app_nil_r in E. rewrite E. reflexivity.
Qed.

Lemma Block_parse_name_list (names : list Name) :
  valid_type tlv_Name -> valid_type tlv_NackFakeNameList ->
  Forall Name_wire_ok names ->
  Block_parse (sub_element tlv_NackFakeNameList (names_octets names))
  = Ok (mkBlock tlv_NackFakeNameList
          (tlv_element tlv_NackFakeNameList (names_octets names))
          (names_octets names) (map name_element names)).
Proof.
  intros Hn Hl Hok.
  apply (Block_parse_elements _ _ _ _ (length names)).
  assert (E : names_octets names
              = concat (map (fun name => tlv_element tlv_Name
                  (Block_value (Name_wireEncode name))) names)).
  { unfold names_octets. f_equal. apply map_ext_in. intros name Hin.
    apply Name_wire_ok_octets. rewrite Forall_forall in Hok. auto. }
  rewrite E.
  rewrite (parse_elements_map (fun _ => tlv_Name)
             (fun name => Block_value (Name_wireEncode name))).
  - do 2 f_equal. apply map_ext_in. intros name Hin.
    rewrite Forall_forall in Hok. destruct (Hok name Hin) as (Hw & _ & _).
    unfold name_element. rewrite Hw. reflexivity.
  - rewrite Forall_forall in *. intros name Hin.
    destruct (Hok name Hin) as (_ & Hv & _). split; assumption.
Qed.

Lemma leading_names_name_elements (names : list Name) :
  leading_names (map name_element names) = map name_element names.
Proof.
  induction names as [|name names IH]; [reflexivity|].
  cbn [map leading_names name_element Block_type].
  rewrite Z.eqb_refl. f_equal. exact IH.
Qed.

Lemma Names_fromBlocks_name_elements (names : list Name) :
  Forall Name_wire_ok names ->
  Names_fromBlocks (map name_element names) = Ok names.
Proof.
  induction 1 as [|name names (_ & _ & Hd) _ IH]; [reflexivity|].
  cbn [map Names_fromBlocks]. unfold name_element at 1.
  rewrite Hd. cbn [tlv.bind]. rewrite IH. reflexivity.
Qed.

Lemma to_int32_to_uint32 (n : Z) : is_int32 n -> to_int32 (to_uint32 n) = n.
Proof.
  unfold is_int32, to_int32, to_uint32. intros Hn.
  rewrite Z.add_mod_idemp_l by lia.
  rewrite Z.mod_small by lia. lia.
Qed.

Lemma NackReason_cast_back (r : NackReason) :
  is_int32 (to_underlying r) ->
  NackReason_from_uint64 (NackReason_to_uint32 r) = r.
Proof.
  intros Hr. unfold NackReason_from_uint64, NackReason_to_uint32.
  rewrite to_int32_to_uint32 by exact Hr. destruct r; reflexivity.
Qed.

Lemma to_uint32_is_uint64 (n : Z) : 0 <= to_uint32 n < 2 ^ 64.
Proof.
  unfold to_uint32. pose proof (Z.mod_pos_bound n (2 ^ 32)). lia.
Qed.

(** Decoding the element the encoder wrote gives the field values back. *)
Lemma wireDecode_encoded (h g : NackHeader Name) :
  TlvTypes_ok -> valid_fields h ->
  exists wire',
    wireDecode (sub_element tlv_Nack (NackHeader_value h)) g
    = (Ok tt, mkNackHeader (m_reason h) (m_nackId h) (m_prefixLen h)
                (m_fakeInterestNames h) wire')
    /\ Block_wire wire' = NackHeader_octets h.
Proof.
  intros Hok (Hr & Hi & Hp & Hn & Hs).
  pose proof Hok as (Ht & _ & _ & _ & Hl & Hnm).
  eexists. split.
  - rewrite <- (NackReason_cast_back (m_reason h) Hr) at 1.
    eapply wireDecode_fields.
    + reflexivity.
    + apply Block_parse_NackHeader; assumption.
    + reflexivity.
    + reflexivity.
    + apply readNonNegativeInteger_write. apply to_uint32_is_uint64.
    + reflexivity.
    + apply readNonNegativeInteger_write. exact Hi.
    + reflexivity.
    + apply readNonNegativeInteger_write. exact Hp.
    + reflexivity.
    + apply Block_parse_name_list; assumption.
    + cbn [Block_elements]. rewrite leading_names_name_elements.
      apply Names_fromBlocks_name_elements. exact Hn.
  - reflexivity.
Qed.

(** *** Structural errors *)

Lemma wireDecode_wrong_outer_type (wire : Block) (g : NackHeader Name) :
  Block_type wire <> tlv_Nack ->
  wireDecode wire g = (Throw (Error_expecting "Nack" (Block_type wire)), g).
Proof.
  intros Ht. unfold wireDecode.
  replace (Block_type wire =? tlv_Nack) with false
    by (symmetry; apply Z.eqb_neq; exact Ht).
  reflexivity.
Qed.

Lemma wireDecode_wrong_first (wire w' c0 : Block) (rest : list Block)
  (g : NackHeader Name) :
  Block_type wire = tlv_Nack -> Block_parse wire = Ok w' ->
  Block_elements w' = c0 :: rest ->
  Block_type c0 <> tlv_NackReason ->
  fst (wireDecode wire g)
  = Throw (Error_expecting "NackReason" (Block_type c0)).
Proof.
  intros Ht Hp He H0. decode_prelude Ht Hp He. wrong_type H0. reflexivity.
Qed.

Lemma wireDecode_wrong_second (wire w' c0 c1 : Block) (rest : list Block)
  (v0 : Z) (g : NackHeader Name) :
  Block_type wire = tlv_Nack -> Block_parse wire = Ok w' ->
  Block_elements w' = c0 :: c1 :: rest ->
  Block_type c0 = tlv_NackReason -> readNonNegativeInteger c0 = Ok v0 ->
  Block_type c1 <> tlv_NackId ->
  fst (wireDecode wire g)
  = Throw (Error_expecting "NackId expected" (Block_type c1)).
Proof.
  intros Ht Hp He H0 Hv0 H1. decode_prelude Ht Hp He.
  decode_field H0 Hv0 He. wrong_type H1. reflexivity.
Qed.

Lemma wireDecode_wrong_third (wire w' c0 c1 c2 : Block) (rest : list Block)
  (v0 v1 : Z) (g : NackHeader Name) :
  Block_type wire = tlv_Nack -> Block_parse wire = Ok w' ->
  Block_elements w' = c0 :: c1 :: c2 :: rest ->
  Block_type c0 = tlv_NackReason -> readNonNegativeInteger c0 = Ok v0 ->
  Block_type c1 = tlv_NackId -> readNonNegativeInteger c1 = Ok v1 ->
  Block_type c2 <> tlv_NackPrefixLength ->
  fst (wireDecode wire g) = Throw (Error_what "expecting prefix length block").
Proof.
  intros Ht Hp He H0 Hv0 H1 Hv1 H2. decode_prelude Ht Hp He.
  decode_field H0 Hv0 He. decode_field H1 Hv1 He. wrong_type H2. reflexivity.
Qed.

Lemma wireDecode_wrong_fourth (wire w' c0 c1 c2 c3 : Block) (rest : list Block)
  (v0 v1 v2 : Z) (g : NackHeader Name) :
  Block_type wire = tlv_Nack -> Block_parse wire = Ok w' ->
  Block_elements w' = c0 :: c1 :: c2 :: c3 :: rest ->
  Block_type c0 = tlv_NackReason -> readNonNegativeInteger c0 = Ok v0 ->
  Block_type c1 = tlv_NackId -> readNonNegativeInteger c1 = Ok v1 ->
  Block_type c2 = tlv_NackPrefixLength -> readNonNegativeInteger c2 = Ok v2 ->
  Block_type c3 <> tlv_NackFakeNameList ->
  fst (wireDecode wire g)
  = Throw (Error_what "expecting NackFakeNameList block").
Proof.
  intros Ht Hp He H0 Hv0 H1 Hv1 H2 Hv2 H3. decode_prelude Ht Hp He.
  decode_field H0 Hv0 He. decode_field H1 Hv1 He. decode_field H2 Hv2 He.
  wrong_type H3. reflexivity.
Qed.

(** A NACK element without sub-elements. *)
Lemma wireDecode_no_elements (wire w' : Block) (g : NackHeader Name) :
  Block_type wire = tlv_Nack -> Block_parse wire = Ok w' ->
  Block_elements w' = [] ->
  wireDecode wire g
  = (Ok tt, mkNackHeader NONE (m_nackId g) (m_prefixLen g) [] w').
Proof.
  intros Ht Hp He.
  unfold wireDecode; rewrite Ht, Z.eqb_refl; cbn [negb].
  unfold m_wire_parse, parse_at, deref, mbind, modify, gets, lift, ret, throw.
  header_simpl. rewrite Hp. header_simpl.
  unfold elements_size. rewrite He. reflexivity.
Qed.

(** When [wireDecode] returns, the element was a NACK element, and either
    it had no sub-element or its first four were the four fields in order. *)
Lemma wireDecode_Ok_inv (wire : Block) (g : NackHeader Name) :
  fst (wireDecode wire g) = Ok tt ->
  Block_type wire = tlv_Nack
  /\ exists w', Block_parse wire = Ok w'
     /\ (Block_elements w' = []
         \/ exists r i p l rest,
              Block_elements w' = r :: i :: p :: l :: rest
              /\ Block_type r = tlv_NackReason
              /\ Block_type i = tlv_NackId
              /\ Block_type p = tlv_NackPrefixLength
              /\ Block_type l = tlv_NackFakeNameList).
Proof.
  intros H.
  destruct (Z.eq_dec (Block_type wire) tlv_Nack) as [Ht|Ht];
    [|rewrite wireDecode_wrong_outer_type in H by exact Ht; discriminate].
  split; [exact Ht|].
  destruct (Block_parse wire) as [w'| |] eqn:Hp.
  2,3: (unfold wireDecode in H; rewrite Ht, Z.eqb_refl in H; cbn [negb] in H;
        unfold m_wire_parse, mbind, modify, gets, lift in H;
        header_simpl_in H; rewrite Hp in H; discriminate).
  exists w'. split; [reflexivity|].
  destruct (Block_elements w') as [|c0 rest0] eqn:He; [left; reflexivity|right].
  destruct (Z.eq_dec (Block_type c0) tlv_NackReason) as [H0|H0];
    [|rewrite (wireDecode_wrong_first _ _ _ _ _ Ht Hp He H0) in H; discriminate].
  revert H. decode_prelude Ht Hp He. rewrite H0, Z.eqb_refl.
  destruct (readNonNegativeInteger c0) as [v0| |] eqn:Hv0; try discriminate.
  header_simpl. rewrite He. cbn [nth_error].
  destruct rest0 as [|c1 rest1]; [discriminate|].
  destruct (Block_type c1 =? tlv_NackId) eqn:H1; [|discriminate].
  destruct (readNonNegativeInteger c1) as [v1| |] eqn:Hv1; try discriminate.
  header_simpl. rewrite He. cbn [nth_error].
  destruct rest1 as [|c2 rest2]; [discriminate|].
  destruct (Block_type c2 =? tlv_NackPrefixLength) eqn:H2; [|discriminate].
  destruct (readNonNegativeInteger c2) as [v2| |] eqn:Hv2; try discriminate.
  header_simpl. rewrite He. cbn [nth_error].
  destruct rest2 as [|c3 rest3]; [discriminate|].
  destruct (Block_type c3 =? tlv_NackFakeNameList) eqn:H3; [|discriminate].
  intros _. apply Z.eqb_eq in H1, H2, H3.
  exists c0, c1, c2, c3, rest3. repeat split; assumption.
Qed.

End Decode.

End decode_facts.

(** ** Properties of the header codec *)

Import tlv_facts Block_facts encoding_facts decode_facts.

Section Codec.

Context {T : TlvTypes} {Name : Type} {NC : NameCodec Name}.

Lemma NackReason_neq (x y : NackReason) :
  x <> y -> NackReason_eqb x y = false.
Proof.
  intros H. unfold NackReason_eqb. apply Z.eqb_neq. intros E. apply H.
  destruct x, y; simpl in E; subst; reflexivity.
Qed.

(** C3. [isLessSevere(NONE, x)] is false for every [x], [NONE] included;
    [isLessSevere(x, NONE)] is true for every [x] other than [NONE]; and
    for [x] and [y] both other than [NONE], [isLessSevere(x, y)] holds
    exactly when the signed tag of [x] is below the signed tag of [y]. *)
Theorem isLessSevere_ordering (x y : NackReason) :
  isLessSevere NONE x = false
  /\ (x <> NONE -> isLessSevere x NONE = true)
  /\ (x <> NONE -> y <> NONE ->
      (isLessSevere x y = true <-> to_underlying x < to_underlying y)).
Proof.
  split; [reflexivity|]. split.
  - intros Hx. unfold isLessSevere. rewrite (NackReason_neq _ _ Hx).
    reflexivity.
  - intros Hx Hy. unfold isLessSevere.
    rewrite (NackReason_neq _ _ Hx), (NackReason_neq _ _ Hy).
    apply Z.ltb_lt.
Qed.

(** C4. For every combination of field values, the byte count the
    estimator pass returns equals the byte count the buffer pass returns,
    and that count is the number of octets the buffer pass wrote. *)
Theorem estimator_pass_equals_buffer_pass
  (h : NackHeader Name) (estimator : Estimator) (buffer : Encoder) :
  fst (wireEncode_impl (E := Estimator) h estimator)
  = fst (wireEncode_impl (E := Encoder) h buffer)
  /\ len (snd (wireEncode_impl (E := Encoder) h buffer))
     = len buffer + fst (wireEncode_impl (E := Encoder) h buffer).
Proof.
  rewrite Estimator_wireEncode_impl, Encoder_wireEncode_impl. cbn [fst snd].
  split; [reflexivity|]. rewrite len_app. lia.
Qed.

Lemma hasWire_sub_element (type : Z) (value : list Z) :
  hasWire (sub_element type value) = true.
Proof.
  unfold hasWire, sub_element. cbn [Block_wire].
  destruct (tlv_element_nonempty type value []) as (b & bs & E).
  rewrite app_nil_r in E. rewrite E. reflexivity.
Qed.

Lemma encodedOctets_same_fields (h h' : NackHeader Name) :
  same_fields h h' -> encodedOctets h' = encodedOctets h.
Proof.
  intros (Hr & Hi & Hp & Hn). rewrite !encodedOctets_eq.
  unfold NackHeader_octets, NackHeader_value. rewrite Hr, Hi, Hp, Hn.
  reflexivity.
Qed.

(** [wireEncode()] on a header that keeps the invariant: it returns the
    encoding of the field values, stores it, and changes no field. *)
Lemma wireEncode_cached_or_fresh (h : NackHeader Name) :
  valid_type tlv_Nack -> estimatedSize h < 2 ^ 64 -> wire_inv h ->
  exists block h',
    wireEncode h = (Ok block, h')
    /\ m_wire h' = block
    /\ hasWire block = true
    /\ Block_wire block = encodedOctets h
    /\ same_fields h h'
    /\ wire_inv h'.
Proof.
  intros Ht Hs Hinv. destruct (hasWire (m_wire h)) eqn:Hw.
  - exists (m_wire h), h. unfold wireEncode. rewrite Hw.
    repeat split; auto.
  - rewrite (wireEncode_fresh h Ht Hs Hw).
    eexists _, _. split; [reflexivity|].
    assert (Hsame : same_fields h
              (set_m_wire (sub_element tlv_Nack (NackHeader_value h)) h))
      by (repeat split; reflexivity).
    split; [reflexivity|]. split; [apply hasWire_sub_element|].
    repeat split.
    + cbn [sub_element Block_wire]. rewrite encodedOctets_eq. reflexivity.
    + intros _. rewrite (encodedOctets_same_fields _ _ Hsame).
      rewrite encodedOctets_eq. reflexivity.
Qed.

(** C1, as amended. For every header that holds no cached block (one
    just constructed, or after any setter) and whose reason, id, prefix
    length and names are valid, [wireDecode] on the block [wireEncode()]
    returns gives a header with the same reason, id, prefix length and
    names, the names in the same order. *)
Theorem wireDecode_wireEncode_roundtrip (h g : NackHeader Name) :
  TlvTypes_ok -> valid_fields h -> hasWire (m_wire h) = false ->
  exists block h' g',
    wireEncode h = (Ok block, h')
    /\ wireDecode block g = (Ok tt, g')
    /\ m_reason g' = m_reason h
    /\ getReason g' = getReason h
    /\ getId g' = getId h
    /\ getPrefix g' = getPrefix h
    /\ getNames g' = getNames h.
Proof.
  intros Hok Hv Hw.
  pose proof Hok as (Ht & _). pose proof Hv as (_ & _ & _ & _ & Hs).
  rewrite (wireEncode_fresh h Ht Hs Hw).
  destruct (wireDecode_encoded h g Hok Hv) as (wire' & Hd & _).
  eexists _, _, _. split; [reflexivity|]. split; [exact Hd|].
  repeat split.
Qed.

(** C2, as amended. The default constructor, every setter and
    [wireEncode()] keep the invariant that a cached block, when present,
    holds exactly the encoding of the current field values; every setter
    drops the cache without encoding, and the next [wireEncode()] encodes
    the new field values and caches that. *)
Theorem wire_inv_kept_by_setters_and_wireEncode
  (h : NackHeader Name) (reason : NackReason) (id prefix : Z)
  (names : list Name) (indeterminate_nackId indeterminate_prefixLen : Z) :
  valid_type tlv_Nack -> wire_inv h ->
  wire_inv (NackHeader_new indeterminate_nackId indeterminate_prefixLen)
  /\ (forall set : NackHeader Name -> NackHeader Name,
        In set [setReason reason; setId id; setPrefix prefix; setNames names] ->
        hasWire (m_wire (set h)) = false
        /\ wire_inv (set h)
        /\ (estimatedSize (set h) < 2 ^ 64 ->
            exists block h',
              wireEncode (set h) = (Ok block, h')
              /\ m_wire h' = block
              /\ hasWire block = true
              /\ Block_wire block = encodedOctets (set h)
              /\ same_fields (set h) h'
              /\ wire_inv h'))
  /\ (estimatedSize h < 2 ^ 64 ->
      exists block h',
        wireEncode h = (Ok block, h')
        /\ m_wire h' = block
        /\ hasWire block = true
        /\ Block_wire block = encodedOctets h
        /\ same_fields h h'
        /\ wire_inv h').
Proof.
  intros Ht Hinv. split; [intros H; discriminate H|]. split.
  - intros set Hin.
    assert (Hw : hasWire (m_wire (set h)) = false).
    { simpl in Hin. destruct Hin as [E|[E|[E|[E|[]]]]]; subst set; reflexivity. }
    assert (Hi : wire_inv (set h))
      by (unfold wire_inv; rewrite Hw; discriminate).
    split; [exact Hw|]. split; [exact Hi|].
    intros Hs. apply wireEncode_cached_or_fresh; assumption.
  - intros Hs. apply wireEncode_cached_or_fresh; assumption.
Qed.

(** The structural deviations [wireDecode] does report: an outer type
    other than [tlv::Nack], with the type found; a sub-element of another
    type in the place of the reason, the id, the prefix length or the name
    list, with the field that was expected; in particular an id field in
    front of the reason field.  And when [wireDecode] returns on an
    element with sub-elements, the first four are the four fields in
    order. *)
Theorem wireDecode_rejects_structural_deviation
  (wire w' : Block) (g : NackHeader Name) :
  (Block_type wire <> tlv_Nack ->
   fst (wireDecode wire g) = Throw (Error_expecting "Nack" (Block_type wire)))
  /\ (fst (wireDecode wire g) = Ok tt ->
      Block_type wire = tlv_Nack
      /\ exists parsed, Block_parse wire = Ok parsed
         /\ (Block_elements parsed = []
             \/ exists r i p l rest,
                  Block_elements parsed = r :: i :: p :: l :: rest
                  /\ Block_type r = tlv_NackReason
                  /\ Block_type i = tlv_NackId
                  /\ Block_type p = tlv_NackPrefixLength
                  /\ Block_type l = tlv_NackFakeNameList))
  /\ (Block_type wire = tlv_Nack -> Block_parse wire = Ok w' ->
      (forall c0 rest,
         Block_elements w' = c0 :: rest ->
         Block_type c0 <> tlv_NackReason ->
         fst (wireDecode wire g)
         = Throw (Error_expecting "NackReason" (Block_type c0)))
      /\ (forall c0 c1 rest v0,
            Block_elements w' = c0 :: c1 :: rest ->
            Block_type c0 = tlv_NackReason ->
            readNonNegativeInteger c0 = Ok v0 ->
            Block_type c1 <> tlv_NackId ->
            fst (wireDecode wire g)
            = Throw (Error_expecting "NackId expected" (Block_type c1)))
      /\ (forall c0 c1 c2 rest v0 v1,
            Block_elements w' = c0 :: c1 :: c2 :: rest ->
            Block_type c0 = tlv_NackReason ->
            readNonNegativeInteger c0 = Ok v0 ->
            Block_type c1 = tlv_NackId ->
            readNonNegativeInteger c1 = Ok v1 ->
            Block_type c2 <> tlv_NackPrefixLength ->
            fst (wireDecode wire g)
            = Throw (Error_what "expecting prefix length block"))
      /\ (forall c0 c1 c2 c3 rest v0 v1 v2,
            Block_elements w' = c0 :: c1 :: c2 :: c3 :: rest ->
            Block_type c0 = tlv_NackReason ->
            readNonNegativeInteger c0 = Ok v0 ->
            Block_type c1 = tlv_NackId ->
            readNonNegativeInteger c1 = Ok v1 ->
            Block_type c2 = tlv_NackPrefixLength ->
            readNonNegativeInteger c2 = Ok v2 ->
            Block_type c3 <> tlv_NackFakeNameList ->
            fst (wireDecode wire g)
            = Throw (Error_what "expecting NackFakeNameList block"))
      /\ (forall c0 c1 rest,
            tlv_NackId <> tlv_NackReason ->
            Block_elements w' = c0 :: c1 :: rest ->
            Block_type c0 = tlv_NackId ->
            Block_type c1 = tlv_NackReason ->
            fst (wireDecode wire g)
            = Throw (Error_expecting "NackReason" tlv_NackId))).
Proof.
  split; [|split].
  - intros Ht. rewrite wireDecode_wrong_outer_type by exact Ht. reflexivity.
  - apply wireDecode_Ok_inv.
  - intros Ht Hp. repeat split.
    + intros c0 rest He H0. eapply wireDecode_wrong_first; eassumption.
    + intros c0 c1 rest v0 He H0 Hv0 H1.
      eapply wireDecode_wrong_second; eassumption.
    + intros c0 c1 c2 rest v0 v1 He H0 Hv0 H1 Hv1 H2.
      eapply wireDecode_wrong_third; eassumption.
    + intros c0 c1 c2 c3 rest v0 v1 v2 He H0 Hv0 H1 Hv1 H2 Hv2 H3.
      eapply wireDecode_wrong_fourth; eassumption.
    + intros c0 c1 rest Hne He H0 H1. rewrite <- H0.
      eapply wireDecode_wrong_first; try eassumption. rewrite H0. exact Hne.
Qed.

(** The enumerators of [NackReason], by tag. *)
Lemma getReason_NONE_of_unknown (h : NackHeader Name) :
  ~ In (to_underlying (m_reason h))
       [-150; -100; -50; -30; -10; 0; 50; 100; 150] ->
  getReason h = NONE.
Proof.
  intros Hnot. unfold getReason, NackReason_eqb.
  cbn [to_underlying DDOS_FAKE_INTEREST CONGESTION DUPLICATE NO_ROUTE].
  replace (to_underlying (m_reason h) =? -100) with false
    by (symmetry; apply Z.eqb_neq; intros E; apply Hnot; rewrite E; simpl; tauto).
  replace (to_underlying (m_reason h) =? 50) with false
    by (symmetry; apply Z.eqb_neq; intros E; apply Hnot; rewrite E; simpl; tauto).
  replace (to_underlying (m_reason h) =? 100) with false
    by (symmetry; apply Z.eqb_neq; intros E; apply Hnot; rewrite E; simpl; tauto).
  replace (to_underlying (m_reason h) =? 150) with false
    by (symmetry; apply Z.eqb_neq; intros E; apply Hnot; rewrite E; simpl; tauto).
  reflexivity.
Qed.

(** C6. When the reason field of an otherwise well-formed NACK element
    carries a number whose tag is none of -150, -100, -50, -30, -10, 0,
    50, 100, 150, decoding succeeds and [getReason()] is [NONE]. *)
Theorem unknown_reason_decodes_to_NONE
  (wire w' r i p l l' : Block) (rest : list Block) (v vi vp : Z)
  (names : list Name) (g : NackHeader Name) :
  Block_type wire = tlv_Nack ->
  Block_parse wire = Ok w' ->
  Block_elements w' = r :: i :: p :: l :: rest ->
  Block_type r = tlv_NackReason -> readNonNegativeInteger r = Ok v ->
  Block_type i = tlv_NackId -> readNonNegativeInteger i = Ok vi ->
  Block_type p = tlv_NackPrefixLength -> readNonNegativeInteger p = Ok vp ->
  Block_type l = tlv_NackFakeNameList -> Block_parse l = Ok l' ->
  Names_fromBlocks (leading_names (Block_elements l')) = Ok names ->
  ~ In (to_int32 v) [-150; -100; -50; -30; -10; 0; 50; 100; 150] ->
  exists g',
    wireDecode wire g = (Ok tt, g')
    /\ to_underlying (m_reason g') = to_int32 v
    /\ getReason g' = NONE.
Proof.
  intros Ht Hp He Hr Hv Hi Hvi Hpl Hvp Hl Hlp Hn Hnot.
  eexists. split; [|split].
  - eapply wireDecode_fields; eassumption.
  - reflexivity.
  - apply getReason_NONE_of_unknown. exact Hnot.
Qed.

(** C7, as amended. Whatever the header held before, decoding a NACK
    element without sub-elements succeeds and leaves reason [NONE] and an
    empty name list; the id and the prefix length keep the values they
    had before the call. *)
Theorem wireDecode_empty_Nack (wire w' : Block) (g : NackHeader Name) :
  Block_type wire = tlv_Nack ->
  Block_parse wire = Ok w' ->
  Block_elements w' = [] ->
  exists g',
    wireDecode wire g = (Ok tt, g')
    /\ getReason g' = NONE
    /\ getNames g' = []
    /\ getId g' = getId g
    /\ getPrefix g' = getPrefix g.
Proof.
  intros Ht Hp He. eexists. split.
  - apply wireDecode_no_elements; eassumption.
  - repeat split.
Qed.

Lemma leading_names_app (pre post : list Block) :
  Forall (fun b => Block_type b = tlv_Name) pre ->
  leading_names (pre ++ post) = pre ++ leading_names post.
Proof.
  induction 1 as [|b pre Hb _ IH]; [reflexivity|].
  cbn [app leading_names]. rewrite Hb, Z.eqb_refl, IH. reflexivity.
Qed.

(** C8. In the name-list field, names are taken from the front while the
    sub-elements have type [tlv::Name]; the loop stops without an error at
    the first sub-element of another type, so the names before it are
    appended in encoded order and everything from it on is ignored; a
    name-list field without sub-elements gives the empty list. *)
Theorem name_list_stops_at_first_non_Name
  (wire w' r i p l l' : Block) (rest pre : list Block) (vr vi vp : Z)
  (names : list Name) (g : NackHeader Name) :
  Block_type wire = tlv_Nack ->
  Block_parse wire = Ok w' ->
  Block_elements w' = r :: i :: p :: l :: rest ->
  Block_type r = tlv_NackReason -> readNonNegativeInteger r = Ok vr ->
  Block_type i = tlv_NackId -> readNonNegativeInteger i = Ok vi ->
  Block_type p = tlv_NackPrefixLength -> readNonNegativeInteger p = Ok vp ->
  Block_type l = tlv_NackFakeNameList -> Block_parse l = Ok l' ->
  Forall (fun b => Block_type b = tlv_Name) pre ->
  Names_fromBlocks pre = Ok names ->
  (Block_elements l' = pre
   \/ exists c post,
        Block_elements l' = pre ++ c :: post /\ Block_type c <> tlv_Name) ->
  exists g',
    wireDecode wire g = (Ok tt, g')
    /\ getNames g' = names
    /\ (Block_elements l' = [] -> getNames g' = []).
Proof.
  intros Ht Hp He Hr Hvr Hi Hvi Hpl Hvp Hl Hlp Hpre Hnames Hshape.
  assert (Hlead : leading_names (Block_elements l') = pre).
  { destruct Hshape as [E|(c & post & E & Hc)]; rewrite E.
    - rewrite <- (app_nil_r pre) at 1.
      rewrite leading_names_app by exact Hpre. apply app_nil_r.
    - rewrite leading_names_app by exact Hpre. cbn [leading_names].
      replace (Block_type c =? tlv_Name) with false
        by (symmetry; apply Z.eqb_neq; exact Hc).
      apply app_nil_r. }
  eexists. split; [|split].
  - eapply wireDecode_fields; try eassumption. rewrite Hlead. exact Hnames.
  - reflexivity.
  - intros E. cbn [getNames m_fakeInterestNames].
    rewrite E in Hlead. simpl in Hlead. subst pre.
    simpl in Hnames. inversion Hnames. reflexivity.
Qed.

(** C9. [wireEncode] writes the reason as [static_cast<uint32_t>]: the
    reason field on the wire holds the tag modulo 2^32, and the cast in
    [wireDecode] gives the stored tag back.  For [DDOS_RESET_RATE]
    (tag -30) the wire holds 4294967266 and the decoded header stores
    [DDOS_RESET_RATE], while [getReason()] answers [NONE]. *)
Theorem reason_on_the_wire
  (h0 g : NackHeader Name) (reason : NackReason) :
  TlvTypes_ok ->
  valid_fields (setReason reason h0) ->
  exists block h' parsed reasonElement rest g',
    wireEncode (setReason reason h0) = (Ok block, h')
    /\ Block_parse block = Ok parsed
    /\ Block_elements parsed = reasonElement :: rest
    /\ Block_type reasonElement = tlv_NackReason
    /\ readNonNegativeInteger reasonElement
       = Ok (to_underlying reason mod 2 ^ 32)
    /\ wireDecode block g = (Ok tt, g')
    /\ m_reason g' = reason
    /\ (reason = DDOS_RESET_RATE ->
        readNonNegativeInteger reasonElement = Ok 4294967266
        /\ m_reason g' = DDOS_RESET_RATE
        /\ getReason g' = NONE
        /\ getReason (setReason reason h0) = NONE).
Proof.
  intros Hok Hv. set (h := setReason reason h0) in *.
  pose proof Hok as (Ht & _). pose proof Hv as (_ & _ & _ & _ & Hs).
  rewrite (wireEncode_fresh h Ht Hs eq_refl).
  destruct (wireDecode_encoded h g Hok Hv) as (wire' & Hd & _).
  assert (Hread : readNonNegativeInteger
            (sub_element tlv_NackReason
               (writeNonNegativeInteger (NackReason_to_uint32 (m_reason h))))
          = Ok (to_underlying reason mod 2 ^ 32)).
  { unfold sub_element. rewrite readNonNegativeInteger_write
      by apply to_uint32_is_uint64. reflexivity. }
  eexists _, _, _, _, _, _. split; [reflexivity|].
  split; [apply Block_parse_NackHeader; assumption|].
  split; [reflexivity|]. split; [reflexivity|].
  split; [exact Hread|]. split; [exact Hd|]. split; [reflexivity|].
  intros E. rewrite Hread. subst reason. repeat split.
Qed.

(** C10, as amended. For every header without a cached block (one just
    constructed, or after any setter), the block [wireEncode()] returns
    has exactly four sub-elements: reason, id, prefix length and the name
    list, also when the name list is empty; and whatever the header, the
    octets the buffer pass writes are a NACK element around these four
    fields, never one without sub-elements. *)
Theorem wireEncode_has_four_children (h : NackHeader Name) :
  encodedOctets h = tlv_element tlv_Nack (NackHeader_value h)
  /\ NackHeader_value h <> []
  /\ (TlvTypes_ok -> estimatedSize h < 2 ^ 64 ->
      hasWire (m_wire h) = false ->
      exists block h' parsed r i p l,
        wireEncode h = (Ok block, h')
        /\ Block_parse block = Ok parsed
        /\ Block_elements parsed = [r; i; p; l]
        /\ Block_type r = tlv_NackReason
        /\ Block_type i = tlv_NackId
        /\ Block_type p = tlv_NackPrefixLength
        /\ Block_type l = tlv_NackFakeNameList).
Proof.
  split; [apply encodedOctets_eq|]. split.
  - unfold NackHeader_value.
    destruct (tlv_element_nonempty tlv_NackReason
      (writeNonNegativeInteger (NackReason_to_uint32 (m_reason h)))
      (tlv_element tlv_NackId (writeNonNegativeInteger (m_nackId h))
       ++ tlv_element tlv_NackPrefixLength
            (writeNonNegativeInteger (m_prefixLen h))
       ++ tlv_element tlv_NackFakeNameList
            (names_octets (m_fakeInterestNames h)))) as (b & bs & E).
    rewrite E. discriminate.
  - intros Hok Hs Hw. pose proof Hok as (Ht & _).
    rewrite (wireEncode_fresh h Ht Hs Hw).
    eexists _, _, _, _, _, _, _. split; [reflexivity|].
    split; [apply Block_parse_NackHeader; assumption|].
    repeat split.
Qed.

End Codec.

(** ** Further properties of the header codec *)

Section Further.

Context {T : TlvTypes} {Name : Type} {NC : NameCodec Name}.

(** *** The severity order *)

(** X1. [isLessSevere] is a strict order: no reason is less severe than
    itself, two reasons are never less severe than each other, and less
    severe than less severe is less severe. *)
Theorem isLessSevere_strict_order (x y z : NackReason) :
  isLessSevere x x = false
  /\ (isLessSevere x y = true -> isLessSevere y x = false)
  /\ (isLessSevere x y = true -> isLessSevere y z = true ->
      isLessSevere x z = true).
Proof.
  unfold isLessSevere, NackReason_eqb. cbn [to_underlying NONE].
  destruct x as [x], y as [y], z as [z]. cbn [to_underlying].
  destruct (x =? 0) eqn:Ex, (y =? 0) eqn:Ey, (z =? 0) eqn:Ez;
    repeat split; intros; try discriminate; try reflexivity;
    rewrite ?Z.ltb_lt, ?Z.ltb_ge in *; lia.
Qed.

(** X2. Any two reasons with different tags are comparable, in one
    direction or the other, and reasons with the same tag are not. *)
Theorem isLessSevere_connected (x y : NackReason) :
  isLessSevere x y || isLessSevere y x = negb (NackReason_eqb x y).
Proof.
  unfold isLessSevere, NackReason_eqb. cbn [to_underlying NONE].
  destruct x as [x], y as [y]. cbn [to_underlying].
  destruct (x =? 0) eqn:Ex, (y =? 0) eqn:Ey, (x =? y) eqn:Exy,
           (x <? y) eqn:Lxy, (y <? x) eqn:Lyx; try reflexivity;
    rewrite ?Z.eqb_eq, ?Z.eqb_neq, ?Z.ltb_lt, ?Z.ltb_ge in *; lia.
Qed.

(** *** Printing and reading the reason *)

(** X3. [operator<<] and [getReason()] agree on the reasons they know:
    the text for the stored reason is the text for what [getReason()]
    answers, and it is "None" exactly when [getReason()] answers [NONE]. *)
Theorem print_agrees_with_getReason (h : NackHeader Name) :
  NackReason_print (m_reason h) = NackReason_print (getReason h)
  /\ (NackReason_print (m_reason h) = "None"%string <-> getReason h = NONE).
Proof.
  unfold getReason, NackReason_print, NackReason_eqb.
  destruct (m_reason h) as [r]. cbn [to_underlying DDOS_FAKE_INTEREST
    CONGESTION DUPLICATE NO_ROUTE].
  destruct (r =? -100) eqn:E1; [|destruct (r =? 50) eqn:E2;
    [|destruct (r =? 100) eqn:E3; [|destruct (r =? 150) eqn:E4]]];
    cbn [orb to_underlying]; rewrite ?E1, ?E2, ?E3, ?E4;
    try (apply Z.eqb_eq in E1); try (apply Z.eqb_eq in E2);
    try (apply Z.eqb_eq in E3); try (apply Z.eqb_eq in E4); subst;
    (split; [reflexivity|split; intros H; try discriminate H; reflexivity]).
Qed.

(** X4. [getReason()] only ever answers [NONE] or one of the four reasons
    [DDOS_FAKE_INTEREST], [CONGESTION], [DUPLICATE], [NO_ROUTE]; a reason
    given to [setReason] is read back by [getReason()] exactly when it is
    one of these five, and is read as [NONE] otherwise. *)
Theorem getReason_setReason (h : NackHeader Name) (reason : NackReason) :
  In (getReason h) [NONE; DDOS_FAKE_INTEREST; CONGESTION; DUPLICATE; NO_ROUTE]
  /\ (getReason (setReason reason h) = reason
      <-> In reason [NONE; DDOS_FAKE_INTEREST; CONGESTION; DUPLICATE; NO_ROUTE])
  /\ (getReason (setReason reason h) = reason
      \/ getReason (setReason reason h) = NONE).
Proof.
  assert (Hrange : forall r : NackReason,
    (if NackReason_eqb r DDOS_FAKE_INTEREST || NackReason_eqb r CONGESTION
        || NackReason_eqb r DUPLICATE || NackReason_eqb r NO_ROUTE
     then r else NONE) = r
    <-> In r [NONE; DDOS_FAKE_INTEREST; CONGESTION; DUPLICATE; NO_ROUTE]).
  { intros [r]. unfold NackReason_eqb.
    cbn [to_underlying DDOS_FAKE_INTEREST CONGESTION DUPLICATE NO_ROUTE In].
    unfold NONE, DDOS_FAKE_INTEREST, CONGESTION, DUPLICATE, NO_ROUTE.
    destruct (r =? -100) eqn:E1, (r =? 50) eqn:E2, (r =? 100) eqn:E3,
             (r =? 150) eqn:E4; cbn [orb];
      rewrite ?Z.eqb_eq, ?Z.eqb_neq in *; subst;
      (split; [intros H; try (inversion H; subst; tauto); tauto|]);
      try reflexivity;
      intros [H|[H|[H|[H|[H|[]]]]]]; inversion H; try reflexivity;
      subst; lia. }
  split; [|split].
  - unfold getReason. destruct (m_reason h) as [r]. unfold NackReason_eqb.
    cbn [to_underlying DDOS_FAKE_INTEREST CONGESTION DUPLICATE NO_ROUTE In].
    destruct (r =? -100) eqn:E1, (r =? 50) eqn:E2, (r =? 100) eqn:E3,
             (r =? 150) eqn:E4; cbn [orb];
      rewrite ?Z.eqb_eq in *; subst; unfold NONE, DDOS_FAKE_INTEREST,
        CONGESTION, DUPLICATE, NO_ROUTE; tauto.
  - apply Hrange.
  - unfold getReason, setReason. cbn [m_reason set_m_wire set_m_reason].
    destruct (NackReason_eqb reason DDOS_FAKE_INTEREST
              || NackReason_eqb reason CONGESTION
              || NackReason_eqb reason DUPLICATE
              || NackReason_eqb reason NO_ROUTE); [left|right]; reflexivity.
Qed.

(** *** What a successful [wireDecode] means *)

Lemma names_loop_Ok_inv (elements : list Block) (g : NackHeader Name) :
  fst (names_loop elements g) = Ok tt ->
  exists names, Names_fromBlocks (leading_names elements) = Ok names.
Proof.
  revert g; induction elements as [|b rest IH]; intros g H.
  - exists []. reflexivity.
  - cbn [names_loop leading_names] in *.
    destruct (Block_type b =? tlv_Name).
    + unfold mbind, lift, modify in H.
      destruct (Name_fromBlock b) as [name| |] eqn:En; try discriminate H.
      destruct (IH _ H) as (names & Hn).
      exists (name :: names). cbn [Names_fromBlocks]. rewrite En, Hn.
      reflexivity.
    + exists []. reflexivity.
Qed.

(** When [wireDecode] returns, either the element had no sub-element, or
    its first four sub-elements were the four fields and each could be
    read. *)
Lemma wireDecode_Ok_read (wire : Block) (g : NackHeader Name) :
  fst (wireDecode wire g) = Ok tt ->
  Block_type wire = tlv_Nack
  /\ exists w', Block_parse wire = Ok w'
     /\ (Block_elements w' = []
         \/ exists r i p l l' rest vr vi vp names,
              Block_elements w' = r :: i :: p :: l :: rest
              /\ Block_type r = tlv_NackReason
              /\ readNonNegativeInteger r = Ok vr
              /\ Block_type i = tlv_NackId
              /\ readNonNegativeInteger i = Ok vi
              /\ Block_type p = tlv_NackPrefixLength
              /\ readNonNegativeInteger p = Ok vp
              /\ Block_type l = tlv_NackFakeNameList
              /\ Block_parse l = Ok l'
              /\ Names_fromBlocks (leading_names (Block_elements l'))
                 = Ok names).
Proof.
  intros H.
  destruct (wireDecode_Ok_inv wire g H) as (Ht & w' & Hp & Hshape).
  split; [exact Ht|]. exists w'. split; [exact Hp|].
  destruct Hshape as [He|(r & i & p & l & rest & He & Hr & Hi & Hpl & Hl)];
    [left; exact He|right].
  revert H. decode_prelude Ht Hp He. rewrite Hr, Z.eqb_refl.
  destruct (readNonNegativeInteger r) as [vr| |] eqn:Hvr; try discriminate.
  header_simpl. rewrite He. cbn [nth_error]. rewrite Hi, Z.eqb_refl.
  destruct (readNonNegativeInteger i) as [vi| |] eqn:Hvi; try discriminate.
  header_simpl. rewrite He. cbn [nth_error]. rewrite Hpl, Z.eqb_refl.
  destruct (readNonNegativeInteger p) as [vp| |] eqn:Hvp; try discriminate.
  header_simpl. rewrite He. cbn [nth_error]. rewrite Hl, Z.eqb_refl.
  header_simpl. rewrite He. cbn [nth_error].
  destruct (Block_parse l) as [l'| |] eqn:Hlp; try discriminate.
  header_simpl. unfold Block_set_element. cbn [Block_elements].
  rewrite He. cbn [list_set nth_error].
  destruct (negb (elements_size l' =? 0)) eqn:Ez.
  - intros Hloop. apply names_loop_Ok_inv in Hloop. destruct Hloop as (names & Hn).
    exists r, i, p, l, l', rest, vr, vi, vp, names. repeat split; assumption.
  - intros _. apply negb_false_iff, Z.eqb_eq in Ez. unfold elements_size in Ez.
    exists r, i, p, l, l', rest, vr, vi, vp, []. repeat split; try assumption.
    destruct (Block_elements l') as [|x xs]; [reflexivity|].
    unfold len in Ez; simpl in Ez; lia.
Qed.

Lemma Block_parse_preserves (b b' : Block) :
  Block_parse b = Ok b' ->
  Block_type b' = Block_type b
  /\ Block_wire b' = Block_wire b
  /\ Block_value b' = Block_value b.
Proof.
  unfold Block_parse.
  destruct (negb (elements_size b =? 0) || (len (Block_value b) =? 0)).
  - intros H; inversion H; subst; repeat split.
  - destruct (parse_elements (length (Block_value b)) (Block_value b))
      as [[l| |]|]; cbn [tlv.bind]; intros H; inversion H; repeat split.
Qed.

(** X5. A successful decode of a NACK element with sub-elements overwrites
    the whole header: what it leaves does not depend on what the header
    held before. *)
Theorem wireDecode_overwrites_header
  (wire w' : Block) (g1 g2 h1 : NackHeader Name) :
  Block_parse wire = Ok w' -> Block_elements w' <> [] ->
  wireDecode wire g1 = (Ok tt, h1) ->
  wireDecode wire g2 = (Ok tt, h1).
Proof.
  intros Hp Hne Hd.
  assert (H1 : fst (wireDecode wire g1) = Ok tt) by (rewrite Hd; reflexivity).
  destruct (wireDecode_Ok_read wire g1 H1) as (Ht & w & Hp' & Hshape).
  rewrite Hp in Hp'. inversion Hp'; subst w.
  destruct Hshape as [He|(r & i & p & l & l' & rest & vr & vi & vp & names
    & He & Hr & Hvr & Hi & Hvi & Hpl & Hvp & Hl & Hlp & Hn)]; [contradiction|].
  rewrite (wireDecode_fields wire w' r i p l l' rest vr vi vp names g1
             Ht Hp He Hr Hvr Hi Hvi Hpl Hvp Hl Hlp Hn) in Hd.
  inversion Hd; subst h1.
  apply (wireDecode_fields wire w' r i p l l' rest vr vi vp names g2
           Ht Hp He Hr Hvr Hi Hvi Hpl Hvp Hl Hlp Hn).
Qed.

(** The cached block after a successful decode is the received block with
    its sub-elements parsed: same type, same octets, same value. *)
Lemma wireDecode_Ok_wire (wire : Block) (g g' : NackHeader Name) :
  wireDecode wire g = (Ok tt, g') ->
  Block_type (m_wire g') = Block_type wire
  /\ Block_wire (m_wire g') = Block_wire wire
  /\ Block_value (m_wire g') = Block_value wire.
Proof.
  intros Hd.
  assert (H1 : fst (wireDecode wire g) = Ok tt) by (rewrite Hd; reflexivity).
  destruct (wireDecode_Ok_read wire g H1) as (Ht & w' & Hp & Hshape).
  destruct (Block_parse_preserves _ _ Hp) as (E1 & E2 & E3).
  destruct Hshape as [He|(r & i & p & l & l' & rest & vr & vi & vp & names
    & He & Hr & Hvr & Hi & Hvi & Hpl & Hvp & Hl & Hlp & Hn)].
  - rewrite (wireDecode_no_elements wire w' g Ht Hp He) in Hd.
    inversion Hd; subst g'. cbn [m_wire]. auto.
  - rewrite (wireDecode_fields wire w' r i p l l' rest vr vi vp names g
               Ht Hp He Hr Hvr Hi Hvi Hpl Hvp Hl Hlp Hn) in Hd.
    inversion Hd; subst g'. cbn [m_wire Block_set_element Block_type
      Block_wire Block_value]. auto.
Qed.

(** *** The cache *)

Lemma Block_fromBuffer_wire (buffer : list Z) (b : Block) :
  Block_fromBuffer buffer = Ok b -> Block_wire b = buffer /\ hasWire b = true.
Proof.
  unfold Block_fromBuffer. destruct buffer as [|x xs]; [discriminate|].
  destruct (readType (x :: xs)) as [[type pos]| |]; cbn [tlv.bind];
    try discriminate.
  destruct (readVarNumber pos) as [[length value]| |]; cbn [tlv.bind];
    try discriminate.
  destruct (negb (length =? len value)); [discriminate|].
  intros H; inversion H; subst. split; reflexivity.
Qed.

(** X6. [wireEncode()] is idempotent: when a call returns a block, the
    next call on the header it leaves returns the same block and changes
    nothing, and no field was changed by the first call. *)
Theorem wireEncode_idempotent (h h' : NackHeader Name) (block : Block) :
  wireEncode h = (Ok block, h') ->
  wireEncode h' = (Ok block, h')
  /\ m_wire h' = block
  /\ same_fields h h'.
Proof.
  unfold wireEncode at 1. destruct (hasWire (m_wire h)) eqn:Hw.
  - intros H; inversion H; subst. unfold wireEncode. rewrite Hw.
    repeat split.
  - rewrite Estimator_wireEncode_impl. unfold EncodingBuffer_new.
    rewrite Encoder_wireEncode_impl. unfold Encoder_block, mbind, lift, modify, gets.
    destruct (Block_fromBuffer (NackHeader_octets h ++ [])) as [b| |] eqn:Hb;
      try discriminate.
    intros H; inversion H; subst.
    destruct (Block_fromBuffer_wire _ _ Hb) as (_ & Hh).
    unfold wireEncode. cbn [m_wire set_m_wire]. rewrite Hh.
    repeat split.
Qed.

Lemma names_loop_keeps_wire (elements : list Block) (g : NackHeader Name) :
  m_wire (snd (names_loop elements g)) = m_wire g.
Proof.
  revert g; induction elements as [|b rest IH]; intros g; [reflexivity|].
  cbn [names_loop]. destruct (Block_type b =? tlv_Name); [|reflexivity].
  unfold mbind, lift, modify.
  destruct (Name_fromBlock b) as [name| |]; try reflexivity.
  destruct (names_loop rest
              (set_m_fakeInterestNames (m_fakeInterestNames g ++ [name]) g))
    as [[[]| |] s] eqn:E;
    pose proof (IH (set_m_fakeInterestNames (m_fakeInterestNames g ++ [name]) g))
      as Hk; rewrite E in Hk; exact Hk.
Qed.

(** Once the outer type is accepted, the state of the header holds the
    received octets in its cached block at every later step. *)
Lemma wireDecode_keeps_received_octets (wire : Block) (g : NackHeader Name) :
  Block_type wire = tlv_Nack ->
  Block_wire (m_wire (snd (wireDecode wire g))) = Block_wire wire.
Proof.
  intros Ht. unfold wireDecode. rewrite Ht, Z.eqb_refl. cbn [negb].
  unfold m_wire_parse, parse_at, deref, mbind, modify, gets, lift, ret, throw.
  header_simpl.
  destruct (Block_parse wire) as [w'| |] eqn:Hp; try reflexivity.
  destruct (Block_parse_preserves _ _ Hp) as (_ & Hw & _).
  header_simpl. unfold elements_size at 1.
  destruct (Block_elements w') as [|c0 rest0] eqn:He; [exact Hw|].
  replace (0 <? len (c0 :: rest0)) with true
    by (symmetry; apply Z.ltb_lt; unfold len; simpl; lia).
  header_simpl. rewrite He. cbn [nth_error].
  destruct (Block_type c0 =? tlv_NackReason); [|exact Hw].
  destruct (readNonNegativeInteger c0); try exact Hw.
  header_simpl. rewrite He. cbn [nth_error].
  destruct rest0 as [|c1 rest1]; [exact Hw|].
  destruct (Block_type c1 =? tlv_NackId); [|exact Hw].
  destruct (readNonNegativeInteger c1); try exact Hw.
  header_simpl. rewrite He. cbn [nth_error].
  destruct rest1 as [|c2 rest2]; [exact Hw|].
  destruct (Block_type c2 =? tlv_NackPrefixLength); [|exact Hw].
  destruct (readNonNegativeInteger c2); try exact Hw.
  header_simpl. rewrite He. cbn [nth_error].
  destruct rest2 as [|c3 rest3]; [exact Hw|].
  destruct (Block_type c3 =? tlv_NackFakeNameList); [|exact Hw].
  header_simpl. rewrite He. cbn [nth_error].
  destruct (Block_parse c3) as [l'| |]; try exact Hw.
  header_simpl. unfold Block_set_element. cbn [Block_elements].
  rewrite He. cbn [list_set nth_error].
  destruct (negb (elements_size l' =? 0)); [|exact Hw].
  rewrite names_loop_keeps_wire. exact Hw.
Qed.

(** X7. [wireDecode] gives no all-or-nothing guarantee.  A block of
    another outer type leaves the header untouched.  An element rejected
    at its first sub-element has already replaced the cache and reset
    reason and names; one rejected at its second sub-element has, on top
    of that, stored the reason it read.  The id and the prefix length are
    as before in both cases. *)
Theorem wireDecode_partial_update
  (wire w' : Block) (g : NackHeader Name) :
  (Block_type wire <> tlv_Nack -> snd (wireDecode wire g) = g)
  /\ (Block_type wire = tlv_Nack -> Block_parse wire = Ok w' ->
      (forall c0 rest,
         Block_elements w' = c0 :: rest ->
         Block_type c0 <> tlv_NackReason ->
         wireDecode wire g
         = (Throw (Error_expecting "NackReason" (Block_type c0)),
            mkNackHeader NONE (m_nackId g) (m_prefixLen g) [] w'))
      /\ (forall c0 c1 rest v0,
            Block_elements w' = c0 :: c1 :: rest ->
            Block_type c0 = tlv_NackReason ->
            readNonNegativeInteger c0 = Ok v0 ->
            Block_type c1 <> tlv_NackId ->
            wireDecode wire g
            = (Throw (Error_expecting "NackId expected" (Block_type c1)),
               mkNackHeader (NackReason_from_uint64 v0) (m_nackId g)
                 (m_prefixLen g) [] w'))).
Proof.
  split; [|intros Ht Hp; split].
  - intros Ht. rewrite wireDecode_wrong_outer_type by exact Ht. reflexivity.
  - intros c0 rest He H0. decode_prelude Ht Hp He. wrong_type H0. reflexivity.
  - intros c0 c1 rest v0 He H0 Hv0 H1. decode_prelude Ht Hp He.
    decode_field H0 Hv0 He. wrong_type H1. reflexivity.
Qed.

(** X8. Once [wireDecode] has accepted the outer type of a block that has
    octets, and has returned or thrown, the next [wireEncode()] returns
    the cached block with exactly the received octets and encodes nothing:
    also an element that [wireDecode] rejected stays in the cache. *)
Theorem wireEncode_after_any_wireDecode
  (wire : Block) (g : NackHeader Name) :
  Block_type wire = tlv_Nack -> hasWire wire = true ->
  (fst (wireDecode wire g) = Ok tt
   \/ exists e, fst (wireDecode wire g) = Throw e) ->
  wireEncode (snd (wireDecode wire g))
  = (Ok (m_wire (snd (wireDecode wire g))), snd (wireDecode wire g))
  /\ Block_wire (m_wire (snd (wireDecode wire g))) = Block_wire wire.
Proof.
  intros Ht Hw _.
  pose proof (wireDecode_keeps_received_octets wire g Ht) as Hk.
  split; [|exact Hk].
  unfold wireEncode.
  replace (hasWire (m_wire (snd (wireDecode wire g)))) with true
    by (unfold hasWire in *; rewrite Hk; symmetry; exact Hw).
  reflexivity.
Qed.

(** *** What [wireDecode] reads *)

(** X9. For a NACK element whose first four sub-elements are a readable
    reason, id, prefix length and name list, [wireDecode] succeeds and
    stores what it read from these four; sub-elements after the name list
    are never looked at, so an element with the same four and other
    trailing sub-elements decodes to the same fields. *)
Theorem wireDecode_reads_first_four
  (wire w' r i p l l' : Block) (rest : list Block) (vr vi vp : Z)
  (names : list Name) (g : NackHeader Name) :
  Block_type wire = tlv_Nack ->
  Block_parse wire = Ok w' ->
  Block_elements w' = r :: i :: p :: l :: rest ->
  Block_type r = tlv_NackReason -> readNonNegativeInteger r = Ok vr ->
  Block_type i = tlv_NackId -> readNonNegativeInteger i = Ok vi ->
  Block_type p = tlv_NackPrefixLength -> readNonNegativeInteger p = Ok vp ->
  Block_type l = tlv_NackFakeNameList -> Block_parse l = Ok l' ->
  Names_fromBlocks (leading_names (Block_elements l')) = Ok names ->
  exists g',
    wireDecode wire g = (Ok tt, g')
    /\ m_reason g' = NackReason_from_uint64 vr
    /\ getId g' = vi
    /\ getPrefix g' = vp
    /\ getNames g' = names
    /\ forall (wire2 w2 : Block) (rest2 : list Block),
         Block_type wire2 = tlv_Nack ->
         Block_parse wire2 = Ok w2 ->
         Block_elements w2 = r :: i :: p :: l :: rest2 ->
         exists g2, wireDecode wire2 g = (Ok tt, g2) /\ same_fields g' g2.
Proof.
  intros Ht Hp He Hr Hvr Hi Hvi Hpl Hvp Hl Hlp Hn.
  eexists. split; [eapply wireDecode_fields; eassumption|].
  repeat split.
  intros wire2 w2 rest2 Ht2 Hp2 He2.
  eexists. split; [eapply wireDecode_fields; eassumption|].
  repeat split.
Qed.

Lemma to_int32_mod (v : Z) : to_int32 (v mod 2 ^ 32) = to_int32 v.
Proof.
  unfold to_int32. rewrite Z.add_mod_idemp_l by lia. reflexivity.
Qed.

(** X10. The reason number is taken modulo 2^32: [wireDecode] stores the
    reason [reason] for every number in the reason field that is congruent
    to [static_cast<uint32_t>(reason)], also for one above 2^32. *)
Theorem wireDecode_reason_modulo
  (wire w' r i p l l' : Block) (rest : list Block) (vr vi vp : Z)
  (names : list Name) (g : NackHeader Name) (reason : NackReason) :
  Block_type wire = tlv_Nack ->
  Block_parse wire = Ok w' ->
  Block_elements w' = r :: i :: p :: l :: rest ->
  Block_type r = tlv_NackReason -> readNonNegativeInteger r = Ok vr ->
  Block_type i = tlv_NackId -> readNonNegativeInteger i = Ok vi ->
  Block_type p = tlv_NackPrefixLength -> readNonNegativeInteger p = Ok vp ->
  Block_type l = tlv_NackFakeNameList -> Block_parse l = Ok l' ->
  Names_fromBlocks (leading_names (Block_elements l')) = Ok names ->
  is_int32 (to_underlying reason) ->
  vr mod 2 ^ 32 = NackReason_to_uint32 reason ->
  exists g', wireDecode wire g = (Ok tt, g') /\ m_reason g' = reason.
Proof.
  intros Ht Hp He Hr Hvr Hi Hvi Hpl Hvp Hl Hlp Hn Hint Hmod.
  eexists. split; [eapply wireDecode_fields; eassumption|].
  cbn [m_reason]. unfold NackReason_from_uint64.
  rewrite <- to_int32_mod, Hmod. unfold NackReason_to_uint32.
  rewrite to_int32_to_uint32 by exact Hint. destruct reason; reflexivity.
Qed.

(** *** The encoding *)

(** X11. The encoding is injective on valid field values: two headers
    whose encodings are the same octets hold the same reason, id, prefix
    length and names. *)
Theorem encodedOctets_injective (h1 h2 : NackHeader Name) :
  TlvTypes_ok -> valid_fields h1 -> valid_fields h2 ->
  encodedOctets h1 = encodedOctets h2 ->
  same_fields h1 h2.
Proof.
  intros Hok Hv1 Hv2 Heq.
  pose proof Hok as (Ht & _).
  pose proof Hv1 as (_ & _ & _ & _ & Hs1).
  pose proof Hv2 as (_ & _ & _ & _ & Hs2).
  rewrite !encodedOctets_eq in Heq. unfold NackHeader_octets in Heq.
  assert (Hval : NackHeader_value h1 = NackHeader_value h2).
  { pose proof (Block_fromBuffer_tlv_element tlv_Nack (NackHeader_value h1)
                  Ht (proj1 (NackHeader_value_bound h1 Hs1))) as B1.
    pose proof (Block_fromBuffer_tlv_element tlv_Nack (NackHeader_value h2)
                  Ht (proj1 (NackHeader_value_bound h2 Hs2))) as B2.
    rewrite Heq in B1. rewrite B1 in B2. inversion B2. reflexivity. }
  destruct (wireDecode_encoded h1 h1 Hok Hv1) as (w1 & Hd1 & _).
  destruct (wireDecode_encoded h2 h1 Hok Hv2) as (w2 & Hd2 & _).
  rewrite Hval in Hd1. rewrite Hd1 in Hd2. inversion Hd2.
  repeat split; congruence.
Qed.

(** X12. The buffer pass puts the element in front of what the buffer
    holds and leaves that as it is; and although the loop runs over the
    names from last to first, the element ends with the octets of the
    names in list order. *)
Theorem wireEncode_impl_layout (h : NackHeader Name) (buffer : Encoder) :
  snd (wireEncode_impl (E := Encoder) h buffer) = encodedOctets h ++ buffer
  /\ exists front,
       encodedOctets h
       = front
         ++ concat (map (fun name =>
                      snd (prependBlock (E := Encoder) (Name_wireEncode name) []))
                    (m_fakeInterestNames h)).
Proof.
  rewrite Encoder_wireEncode_impl, encodedOctets_eq. cbn [snd].
  split; [reflexivity|].
  assert (Hn : concat (map (fun name =>
                  snd (prependBlock (E := Encoder) (Name_wireEncode name) []))
                (m_fakeInterestNames h))
               = names_octets (m_fakeInterestNames h)).
  { unfold names_octets. f_equal. apply map_ext. intros name.
    rewrite Encoder_prependBlock_eq. cbn [snd]. apply app_nil_r. }
  rewrite Hn.
  exists (writeVarNumber tlv_Nack
          ++ writeVarNumber (len (NackHeader_value h))
          ++ tlv_element tlv_NackReason
               (writeNonNegativeInteger (NackReason_to_uint32 (m_reason h)))
          ++ tlv_element tlv_NackId (writeNonNegativeInteger (m_nackId h))
          ++ tlv_element tlv_NackPrefixLength
               (writeNonNegativeInteger (m_prefixLen h))
          ++ writeVarNumber tlv_NackFakeNameList
          ++ writeVarNumber (len (names_octets (m_fakeInterestNames h)))).
  unfold NackHeader_octets. unfold tlv_element at 1.
  unfold NackHeader_value at 2.
  unfold tlv_element at 4.
  rewrite <- !app_assoc. reflexivity.
Qed.

(** X13. Decoding what [wireEncode()] made gives a header whose cache is
    again the encoding of its fields: the cache invariant holds after the
    round trip. *)
Theorem roundtrip_restores_wire_inv (h g : NackHeader Name) :
  TlvTypes_ok -> valid_fields h -> hasWire (m_wire h) = false ->
  exists block h' g',
    wireEncode h = (Ok block, h')
    /\ wireDecode block g = (Ok tt, g')
    /\ hasWire (m_wire g') = true
    /\ Block_wire (m_wire g') = encodedOctets g'
    /\ wire_inv g'.
Proof.
  intros Hok Hv Hw.
  pose proof Hok as (Ht & _). pose proof Hv as (_ & _ & _ & _ & Hs).
  rewrite (wireEncode_fresh h Ht Hs Hw).
  destruct (wireDecode_encoded h g Hok Hv) as (wire' & Hd & Hwire).
  eexists _, _, _. split; [reflexivity|]. split; [exact Hd|].
  assert (Henc : Block_wire wire'
                 = encodedOctets (mkNackHeader (m_reason h) (m_nackId h)
                     (m_prefixLen h) (m_fakeInterestNames h) wire')).
  { rewrite Hwire, encodedOctets_eq. reflexivity. }
  cbn [m_wire]. split; [|split; [exact Henc|intros _; exact Henc]].
  unfold hasWire. rewrite Hwire. unfold NackHeader_octets.
  destruct (tlv_element_nonempty tlv_Nack (NackHeader_value h) [])
    as (b & bs & E).
  rewrite app_nil_r in E. rewrite E. reflexivity.
Qed.

(** X14. [NackHeader(const Block&)] does not initialise its members before
    it decodes.  From a block that [wireEncode()] made it gets all four
    fields, whatever the storage held; from a NACK element without
    sub-elements it gets reason [NONE] and no names, and its id and prefix
    length are whatever the storage held. *)
Theorem NackHeader_fromBlock_fields
  (h : NackHeader Name) (wire w' : Block)
  (indeterminate_reason : NackReason)
  (indeterminate_nackId indeterminate_prefixLen : Z) :
  (TlvTypes_ok -> valid_fields h -> hasWire (m_wire h) = false ->
   exists block h' g',
     wireEncode h = (Ok block, h')
     /\ NackHeader_fromBlock indeterminate_reason indeterminate_nackId
          indeterminate_prefixLen block = (Ok tt, g')
     /\ same_fields h g')
  /\ (Block_type wire = tlv_Nack -> Block_parse wire = Ok w' ->
      Block_elements w' = [] ->
      exists g',
        NackHeader_fromBlock indeterminate_reason indeterminate_nackId
          indeterminate_prefixLen wire = (Ok tt, g')
        /\ getReason g' = NONE
        /\ getNames g' = []
        /\ getId g' = indeterminate_nackId
        /\ getPrefix g' = indeterminate_prefixLen).
Proof.
  split.
  - intros Hok Hv Hw.
    pose proof Hok as (Ht & _). pose proof Hv as (_ & _ & _ & _ & Hs).
    rewrite (wireEncode_fresh h Ht Hs Hw). unfold NackHeader_fromBlock.
    destruct (wireDecode_encoded h
                (mkNackHeader indeterminate_reason indeterminate_nackId
                   indeterminate_prefixLen [] Block_empty) Hok Hv)
      as (wire' & Hd & _).
    eexists _, _, _. split; [reflexivity|]. split; [exact Hd|].
    repeat split.
  - intros Ht Hp He. unfold NackHeader_fromBlock.
    rewrite (wireDecode_no_elements wire w' _ Ht Hp He).
    eexists. split; [reflexivity|]. repeat split.
Qed.

(** X15. Whatever the header's cache holds, also the block of an earlier
    [wireDecode] that the fields do not match, a call of any setter
    followed by [wireEncode()] gives the encoding of the current field
    values, and decoding it gives these values back: never the stale
    block. *)
Theorem setter_then_wireEncode_is_fresh
  (h g : NackHeader Name) (reason : NackReason) (id prefix : Z)
  (names : list Name) (set : NackHeader Name -> NackHeader Name) :
  In set [setReason reason; setId id; setPrefix prefix; setNames names] ->
  TlvTypes_ok -> valid_fields (set h) ->
  exists block h' g',
    wireEncode (set h) = (Ok block, h')
    /\ Block_wire block = encodedOctets (set h)
    /\ wireDecode block g = (Ok tt, g')
    /\ same_fields (set h) g'.
Proof.
  intros Hin Hok Hv.
  assert (Hw : hasWire (m_wire (set h)) = false).
  { simpl in Hin. destruct Hin as [E|[E|[E|[E|[]]]]]; subst set; reflexivity. }
  pose proof Hok as (Ht & _). pose proof Hv as (_ & _ & _ & _ & Hs).
  rewrite (wireEncode_fresh (set h) Ht Hs Hw).
  destruct (wireDecode_encoded (set h) g Hok Hv) as (wire' & Hd & _).
  eexists _, _, _. split; [reflexivity|].
  split; [cbn [sub_element Block_wire]; rewrite encodedOctets_eq; reflexivity|].
  split; [exact Hd|]. repeat split.
Qed.

End Further.

(** ** The properties on concrete headers and elements *)

Import Examples.

Lemma lp_tlv_ok : TlvTypes_ok.
Proof. unfold TlvTypes_ok, valid_type; cbn; lia. Defined.

Lemma name_a_b_ok : Name_wire_ok name_a_b.
Proof. unfold Name_wire_ok; repeat split; vm_compute; reflexivity. Defined.

Lemma name_c_ok : Name_wire_ok name_c.
Proof. unfold Name_wire_ok; repeat split; vm_compute; reflexivity. Defined.

Lemma sample_header_valid : valid_fields sample_header.
Proof.
  unfold valid_fields. split; [unfold is_int32; cbn; lia|].
  split; [unfold is_uint64; cbn; lia|].
  split; [unfold is_uint64; cbn; lia|].
  split; [|vm_compute; reflexivity].
  apply Forall_cons; [exact name_a_b_ok|].
  apply Forall_cons; [exact name_c_ok|]. apply Forall_nil.
Defined.

Lemma wireDecode_wireEncode_roundtrip_witness :
  TlvTypes_ok /\ valid_fields sample_header
  /\ hasWire (m_wire sample_header) = false
  /\ exists block h' g',
       wireEncode sample_header = (Ok block, h')
       /\ wireDecode block fresh_header = (Ok tt, g')
       /\ m_reason g' = DDOS_FAKE_INTEREST
       /\ getReason g' = DDOS_FAKE_INTEREST
       /\ getId g' = 70000
       /\ getPrefix g' = 3
       /\ getNames g' = [name_a_b; name_c].
Proof.
  split; [exact lp_tlv_ok|]. split; [exact sample_header_valid|].
  split; [reflexivity|].
  exact (wireDecode_wireEncode_roundtrip sample_header fresh_header
           lp_tlv_ok sample_header_valid eq_refl).
Defined.

(** C1, counterexample. A header with id 70000 and prefix length 3 that
    decoded the NACK element without sub-elements holds valid field values
    and that element as its cache.  [wireEncode()] returns the cached
    element, and [wireDecode] of it into a header with id 0 and prefix
    length 0 leaves id 0 and prefix length 0: the id and the prefix length
    are not reproduced. *)
Lemma roundtrip_fails_with_stale_cache :
  TlvTypes_ok /\ valid_fields stale_header
  /\ getId stale_header = 70000 /\ getPrefix stale_header = 3
  /\ wireEncode stale_header = (Ok (m_wire stale_header), stale_header)
  /\ Block_wire (m_wire stale_header) = [253; 3; 32; 0]
  /\ exists g',
       wireDecode (m_wire stale_header) fresh_header = (Ok tt, g')
       /\ getId g' = 0 /\ getPrefix g' = 0
       /\ ~ (getId g' = getId stale_header
             /\ getPrefix g' = getPrefix stale_header).
Proof.
  split; [exact lp_tlv_ok|]. split.
  { unfold valid_fields. split; [unfold is_int32; cbn; lia|].
    split; [unfold is_uint64; cbn; lia|].
    split; [unfold is_uint64; cbn; lia|].
    split; [apply Forall_nil|vm_compute; reflexivity]. }
  split; [reflexivity|]. split; [reflexivity|].
  split; [vm_compute; reflexivity|]. split; [reflexivity|].
  eexists. split; [vm_compute; reflexivity|].
  split; [reflexivity|]. split; [reflexivity|].
  intros (H & _). vm_compute in H. discriminate H.
Qed.

Lemma wire_inv_kept_by_setters_and_wireEncode_witness :
  valid_type tlv_Nack /\ wire_inv sample_header
  /\ hasWire (m_wire (setId 1 sample_header)) = false
  /\ exists block h',
       wireEncode (setId 1 sample_header) = (Ok block, h')
       /\ m_wire h' = block
       /\ hasWire block = true
       /\ Block_wire block = encodedOctets (setId 1 sample_header)
       /\ same_fields (setId 1 sample_header) h'
       /\ wire_inv h'.
Proof.
  assert (Ht : valid_type tlv_Nack) by (unfold valid_type; cbn; lia).
  assert (Hinv : wire_inv sample_header) by (intros H; discriminate H).
  split; [exact Ht|]. split; [exact Hinv|].
  destruct (wire_inv_kept_by_setters_and_wireEncode
              sample_header CONGESTION 1 2 [name_c] 0 0 Ht Hinv)
    as (_ & Hset & _).
  destruct (Hset (setId 1) (or_intror (or_introl eq_refl)))
    as (Hw & _ & Hencode).
  split; [exact Hw|]. apply Hencode. vm_compute. reflexivity.
Defined.

(** C2, counterexample. After [wireDecode] of a NACK element without
    sub-elements the cached block is that element, which is not the
    encoding of the field values the header then holds. *)
Lemma wire_inv_broken_by_wireDecode :
  wire_inv fresh_header
  /\ exists g',
       wireDecode empty_Nack fresh_header = (Ok tt, g')
       /\ hasWire (m_wire g') = true
       /\ Block_wire (m_wire g') = [253; 3; 32; 0]
       /\ encodedOctets g'
          = [253; 3; 32; 19; 253; 3; 33; 1; 0; 253; 3; 34; 1; 0;
             253; 3; 35; 1; 0; 253; 3; 36; 0]
       /\ ~ wire_inv g'.
Proof.
  split; [intros H; discriminate H|].
  eexists. split; [vm_compute; reflexivity|].
  split; [reflexivity|]. split; [reflexivity|].
  split; [vm_compute; reflexivity|].
  intros H. specialize (H eq_refl). vm_compute in H. discriminate H.
Qed.

Lemma isLessSevere_ordering_witness :
  CONGESTION <> NONE /\ NO_ROUTE <> NONE
  /\ isLessSevere NONE CONGESTION = false
  /\ isLessSevere CONGESTION NONE = true
  /\ (isLessSevere CONGESTION NO_ROUTE = true <-> 50 < 150).
Proof.
  assert (Hx : CONGESTION <> NONE) by discriminate.
  assert (Hy : NO_ROUTE <> NONE) by discriminate.
  destruct (isLessSevere_ordering CONGESTION NO_ROUTE) as (H1 & H2 & H3).
  split; [exact Hx|]. split; [exact Hy|]. split; [exact H1|].
  split; [exact (H2 Hx)|exact (H3 Hx Hy)].
Defined.

(** The two rejections of section 8 of the spec: a block that is no NACK
    element, and the id field in front of the reason field. *)
Lemma wireDecode_rejects_structural_deviation_example :
  fst (wireDecode not_a_Nack fresh_header)
  = Throw (Error_expecting "Nack" 801)
  /\ fst (wireDecode id_first_Nack fresh_header)
     = Throw (Error_expecting "NackReason" 802).
Proof.
  split.
  - apply (proj1 (wireDecode_rejects_structural_deviation
                    not_a_Nack not_a_Nack fresh_header)).
    cbn. discriminate.
  - destruct (wireDecode_rejects_structural_deviation id_first_Nack
                (mkBlock 800 (Block_wire id_first_Nack)
                   (Block_value id_first_Nack)
                   [sub_element 802 [1]; sub_element 801 [50];
                    sub_element 803 [2]; sub_element 804 []])
                fresh_header) as (_ & _ & H).
    destruct (H eq_refl ltac:(vm_compute; reflexivity))
      as (_ & _ & _ & _ & Hswap).
    apply (Hswap (sub_element 802 [1]) (sub_element 801 [50])
             [sub_element 803 [2]; sub_element 804 []]).
    + cbn. discriminate.
    + reflexivity.
    + reflexivity.
    + reflexivity.
Defined.

(** C5, at the failing input. The NACK element whose only sub-element is
    a reason field is a structural deviation (the id, the prefix length
    and the name list are missing), but [wireDecode] throws no error:
    after the reason field the iterator is at [elements_end()] and line
    147 dereferences it, which is undefined behaviour. *)
Theorem wireDecode_reads_past_elements_end :
  fst (wireDecode reason_only_Nack fresh_header) = Undefined
  /\ m_reason (snd (wireDecode reason_only_Nack fresh_header)) = CONGESTION
  /\ forall e : Error,
       fst (wireDecode reason_only_Nack fresh_header) <> Throw e.
Proof.
  split; [vm_compute; reflexivity|]. split; [vm_compute; reflexivity|].
  intros e H. vm_compute in H. discriminate H.
Qed.

Lemma unknown_reason_decodes_to_NONE_witness :
  exists g',
    wireDecode unknown_reason_Nack fresh_header = (Ok tt, g')
    /\ to_underlying (m_reason g') = 7
    /\ getReason g' = NONE.
Proof.
  apply (unknown_reason_decodes_to_NONE unknown_reason_Nack
           (mkBlock 800 (Block_wire unknown_reason_Nack)
              (Block_value unknown_reason_Nack)
              [sub_element 801 [7]; sub_element 802 [1];
               sub_element 803 [2]; sub_element 804 []])
           (sub_element 801 [7]) (sub_element 802 [1]) (sub_element 803 [2])
           (sub_element 804 []) (sub_element 804 []) [] 7 1 2 []
           fresh_header);
    try (vm_compute; reflexivity).
  cbv. intros H.
  repeat (destruct H as [H|H]; [discriminate H|]). exact H.
Defined.

Lemma wireDecode_empty_Nack_witness :
  exists g',
    wireDecode empty_Nack sample_header = (Ok tt, g')
    /\ getReason g' = NONE
    /\ getNames g' = []
    /\ getId g' = 70000
    /\ getPrefix g' = 3.
Proof.
  apply (wireDecode_empty_Nack empty_Nack empty_Nack sample_header);
    vm_compute; reflexivity.
Defined.

(** C7, counterexample. A header with id 70000 and prefix length 3
    decodes the NACK element without sub-elements and still has id 70000
    and prefix length 3, not 0. *)
Lemma wireDecode_empty_Nack_keeps_id :
  exists g',
    wireDecode empty_Nack sample_header = (Ok tt, g')
    /\ getId g' = 70000
    /\ getPrefix g' = 3
    /\ ~ (getReason g' = NONE /\ getId g' = 0 /\ getPrefix g' = 0
          /\ getNames g' = []).
Proof.
  eexists. split; [vm_compute; reflexivity|].
  split; [reflexivity|]. split; [reflexivity|].
  intros (_ & H & _). vm_compute in H. discriminate H.
Qed.

Lemma name_list_stops_at_first_non_Name_witness :
  exists g',
    wireDecode mixed_list_Nack fresh_header = (Ok tt, g')
    /\ getNames g' = [name_a_b].
Proof.
  destruct (name_list_stops_at_first_non_Name mixed_list_Nack
    (mkBlock 800 (Block_wire mixed_list_Nack) (Block_value mixed_list_Nack)
       [sub_element 801 [50]; sub_element 802 [1]; sub_element 803 [2];
        sub_element 804
          (Block_wire (GenericName.wireEncode name_a_b) ++ tlv_element 9 [0]
           ++ Block_wire (GenericName.wireEncode name_c))])
    (sub_element 801 [50]) (sub_element 802 [1]) (sub_element 803 [2])
    (sub_element 804
       (Block_wire (GenericName.wireEncode name_a_b) ++ tlv_element 9 [0]
        ++ Block_wire (GenericName.wireEncode name_c)))
    (mkBlock 804
       (tlv_element 804
          (Block_wire (GenericName.wireEncode name_a_b) ++ tlv_element 9 [0]
           ++ Block_wire (GenericName.wireEncode name_c)))
       (Block_wire (GenericName.wireEncode name_a_b) ++ tlv_element 9 [0]
        ++ Block_wire (GenericName.wireEncode name_c))
       [name_element name_a_b; sub_element 9 [0]; name_element name_c])
    [] [name_element name_a_b] 50 1 2 [name_a_b] fresh_header)
    as (g' & Hd & Hn & _); try (vm_compute; reflexivity).
  - apply Forall_cons; [reflexivity|apply Forall_nil].
  - right. exists (sub_element 9 [0]), [name_element name_c].
    split; [reflexivity|]. cbn. discriminate.
  - exists g'. split; [exact Hd|exact Hn].
Defined.

Lemma reset_rate_header_valid :
  valid_fields (setReason DDOS_RESET_RATE fresh_header).
Proof.
  unfold valid_fields. split; [unfold is_int32; cbn; lia|].
  split; [unfold is_uint64; cbn; lia|].
  split; [unfold is_uint64; cbn; lia|].
  split; [apply Forall_nil|vm_compute; reflexivity].
Defined.

Lemma reason_on_the_wire_witness :
  exists block h' parsed reasonElement rest g',
    wireEncode (setReason DDOS_RESET_RATE fresh_header) = (Ok block, h')
    /\ Block_parse block = Ok parsed
    /\ Block_elements parsed = reasonElement :: rest
    /\ readNonNegativeInteger reasonElement = Ok 4294967266
    /\ wireDecode block fresh_header = (Ok tt, g')
    /\ m_reason g' = DDOS_RESET_RATE
    /\ getReason g' = NONE.
Proof.
  destruct (reason_on_the_wire fresh_header fresh_header DDOS_RESET_RATE
              lp_tlv_ok reset_rate_header_valid)
    as (block & h' & parsed & reasonElement & rest & g'
        & He & Hp & Hel & _ & _ & Hd & _ & Hreset).
  destruct (Hreset eq_refl) as (Hread & Hm & Hg & _).
  exists block, h', parsed, reasonElement, rest, g'.
  repeat split; assumption.
Defined.

Lemma wireEncode_has_four_children_witness :
  exists block h' parsed r i p l,
    wireEncode fresh_header = (Ok block, h')
    /\ Block_parse block = Ok parsed
    /\ Block_elements parsed = [r; i; p; l]
    /\ Block_type r = 801 /\ Block_type i = 802
    /\ Block_type p = 803 /\ Block_type l = 804.
Proof.
  destruct (wireEncode_has_four_children fresh_header) as (_ & _ & H).
  apply H; [exact lp_tlv_ok|vm_compute; reflexivity|reflexivity].
Defined.

(** C10, counterexample. A header that decoded the NACK element without
    sub-elements returns that element from [wireEncode()]: a block with
    no sub-element. *)
Lemma wireEncode_returns_cached_empty_Nack :
  exists h block h',
    wireDecode empty_Nack fresh_header = (Ok tt, h)
    /\ wireEncode h = (Ok block, h')
    /\ block = empty_Nack
    /\ Block_parse block = Ok block
    /\ Block_elements block = [].
Proof.
  eexists _, _, _. split; [vm_compute; reflexivity|].
  split; [vm_compute; reflexivity|].
  split; [reflexivity|]. split; reflexivity.
Qed.

(** ** The further properties on concrete headers and elements *)

Lemma isLessSevere_strict_order_witness :
  isLessSevere DDOS_HINT_CHANGE_NOTICE DDOS_REPORT_VALID = true
  /\ isLessSevere DDOS_REPORT_VALID CONGESTION = true
  /\ isLessSevere DDOS_HINT_CHANGE_NOTICE CONGESTION = true
  /\ isLessSevere DDOS_REPORT_VALID DDOS_HINT_CHANGE_NOTICE = false.
Proof.
  destruct (isLessSevere_strict_order DDOS_HINT_CHANGE_NOTICE
              DDOS_REPORT_VALID CONGESTION) as (_ & Hasym & Htrans).
  split; [reflexivity|]. split; [reflexivity|].
  split; [exact (Htrans eq_refl eq_refl)|exact (Hasym eq_refl)].
Defined.

(** [unknown_reason_Nack] with its sub-elements parsed. *)
Lemma unknown_reason_Nack_parse :
  Block_parse unknown_reason_Nack
  = Ok (mkBlock 800 (Block_wire unknown_reason_Nack)
          (Block_value unknown_reason_Nack)
          [sub_element 801 [7]; sub_element 802 [1];
           sub_element 803 [2]; sub_element 804 []]).
Proof. vm_compute. reflexivity. Defined.

Lemma wireDecode_overwrites_header_witness :
  wireDecode unknown_reason_Nack fresh_header
  = (Ok tt, snd (wireDecode unknown_reason_Nack fresh_header))
  /\ wireDecode unknown_reason_Nack sample_header
     = (Ok tt, snd (wireDecode unknown_reason_Nack fresh_header)).
Proof.
  assert (H1 : wireDecode unknown_reason_Nack fresh_header
               = (Ok tt, snd (wireDecode unknown_reason_Nack fresh_header)))
    by (vm_compute; reflexivity).
  split; [exact H1|].
  apply (wireDecode_overwrites_header unknown_reason_Nack _
           fresh_header sample_header _ unknown_reason_Nack_parse).
  - cbn. discriminate.
  - exact H1.
Defined.

Lemma wireEncode_idempotent_witness :
  wireEncode sample_header
  = (Ok (m_wire (snd (wireEncode sample_header))), snd (wireEncode sample_header))
  /\ wireEncode (snd (wireEncode sample_header))
     = (Ok (m_wire (snd (wireEncode sample_header))),
        snd (wireEncode sample_header))
  /\ same_fields sample_header (snd (wireEncode sample_header)).
Proof.
  assert (H1 : wireEncode sample_header
               = (Ok (m_wire (snd (wireEncode sample_header))),
                  snd (wireEncode sample_header)))
    by (vm_compute; reflexivity).
  split; [exact H1|].
  destruct (wireEncode_idempotent sample_header _ _ H1) as (H2 & _ & H3).
  split; [exact H2|exact H3].
Defined.

Lemma wireDecode_partial_update_witness :
  snd (wireDecode not_a_Nack sample_header) = sample_header
  /\ getReason (snd (wireDecode id_first_Nack sample_header)) = NONE
  /\ getNames (snd (wireDecode id_first_Nack sample_header)) = []
  /\ getId (snd (wireDecode id_first_Nack sample_header)) = 70000
  /\ hasWire (m_wire (snd (wireDecode id_first_Nack sample_header))) = true
  /\ fst (wireDecode id_missing_Nack sample_header)
     = Throw (Error_expecting "NackId expected" 803)
  /\ getReason (snd (wireDecode id_missing_Nack sample_header)) = CONGESTION.
Proof.
  split.
  - apply (proj1 (wireDecode_partial_update not_a_Nack not_a_Nack
                    sample_header)).
    cbn. discriminate.
  - destruct (wireDecode_partial_update id_first_Nack
                (mkBlock 800 (Block_wire id_first_Nack)
                   (Block_value id_first_Nack)
                   [sub_element 802 [1]; sub_element 801 [50];
                    sub_element 803 [2]; sub_element 804 []])
                sample_header) as (_ & H).
    destruct (H eq_refl ltac:(vm_compute; reflexivity)) as (Hfirst & _).
    rewrite (Hfirst (sub_element 802 [1])
               [sub_element 801 [50]; sub_element 803 [2]; sub_element 804 []]
               eq_refl ltac:(cbn; discriminate)).
    destruct (wireDecode_partial_update id_missing_Nack
                (mkBlock 800 (Block_wire id_missing_Nack)
                   (Block_value id_missing_Nack)
                   [sub_element 801 [50]; sub_element 803 [2];
                    sub_element 804 []])
                sample_header) as (_ & H').
    destruct (H' eq_refl ltac:(vm_compute; reflexivity)) as (_ & Hsecond).
    rewrite (Hsecond (sub_element 801 [50]) (sub_element 803 [2])
               [sub_element 804 []] 50 eq_refl eq_refl eq_refl
               ltac:(cbn; discriminate)).
    repeat split.
Defined.

Lemma wireEncode_after_any_wireDecode_witness :
  fst (wireDecode id_first_Nack fresh_header)
  = Throw (Error_expecting "NackReason" 802)
  /\ wireEncode (snd (wireDecode id_first_Nack fresh_header))
     = (Ok (m_wire (snd (wireDecode id_first_Nack fresh_header))),
        snd (wireDecode id_first_Nack fresh_header))
  /\ Block_wire (m_wire (snd (wireDecode id_first_Nack fresh_header)))
     = Block_wire id_first_Nack.
Proof.
  split; [vm_compute; reflexivity|].
  apply (wireEncode_after_any_wireDecode id_first_Nack fresh_header);
    [reflexivity|reflexivity|].
  right. exists (Error_expecting "NackReason" 802). vm_compute. reflexivity.
Defined.

Lemma wireDecode_reads_first_four_witness :
  exists g',
    wireDecode unknown_reason_Nack sample_header = (Ok tt, g')
    /\ getId g' = 1 /\ getPrefix g' = 2 /\ getNames g' = []
    /\ exists g2,
         wireDecode five_children_Nack sample_header = (Ok tt, g2)
         /\ same_fields g' g2.
Proof.
  destruct (wireDecode_reads_first_four (T := lp_tlv)
              (NC := GenericName.codec) unknown_reason_Nack _
              (sub_element 801 [7]) (sub_element 802 [1]) (sub_element 803 [2])
              (sub_element 804 []) (sub_element 804 []) [] 7 1 2 []
              sample_header eq_refl unknown_reason_Nack_parse eq_refl
              eq_refl eq_refl eq_refl eq_refl eq_refl eq_refl eq_refl
              eq_refl eq_refl)
    as (g' & Hd & _ & Hi & Hp & Hn & Htrail).
  exists g'. repeat split; try assumption.
  apply (Htrail five_children_Nack
           (mkBlock 800 (Block_wire five_children_Nack)
              (Block_value five_children_Nack)
              [sub_element 801 [7]; sub_element 802 [1]; sub_element 803 [2];
               sub_element 804 []; sub_element 805 [9]])
           [sub_element 805 [9]]).
  - reflexivity.
  - vm_compute. reflexivity.
  - reflexivity.
Defined.

Lemma wireDecode_reason_modulo_witness :
  exists g',
    wireDecode wide_reason_Nack fresh_header = (Ok tt, g')
    /\ m_reason g' = CONGESTION.
Proof.
  apply (wireDecode_reason_modulo wide_reason_Nack
           (mkBlock 800 (Block_wire wide_reason_Nack)
              (Block_value wide_reason_Nack)
              [sub_element 801 (be_bytes 8 4294967346); sub_element 802 [1];
               sub_element 803 [2]; sub_element 804 []])
           (sub_element 801 (be_bytes 8 4294967346)) (sub_element 802 [1])
           (sub_element 803 [2]) (sub_element 804 []) (sub_element 804 [])
           [] 4294967346 1 2 [] fresh_header CONGESTION);
    try (vm_compute; reflexivity).
  unfold is_int32. cbn. lia.
Defined.

Lemma sample_header_again_valid : valid_fields sample_header_again.
Proof.
  unfold valid_fields. split; [unfold is_int32; cbn; lia|].
  split; [unfold is_uint64; cbn; lia|].
  split; [unfold is_uint64; cbn; lia|].
  split; [|vm_compute; reflexivity].
  apply Forall_cons; [exact name_a_b_ok|].
  apply Forall_cons; [exact name_c_ok|]. apply Forall_nil.
Defined.

Lemma encodedOctets_injective_witness :
  encodedOctets sample_header = encodedOctets sample_header_again
  /\ same_fields sample_header sample_header_again.
Proof.
  assert (Heq : encodedOctets sample_header = encodedOctets sample_header_again)
    by (vm_compute; reflexivity).
  split; [exact Heq|].
  exact (encodedOctets_injective sample_header sample_header_again
           lp_tlv_ok sample_header_valid sample_header_again_valid Heq).
Defined.

Lemma roundtrip_restores_wire_inv_witness :
  exists block h' g',
    wireEncode sample_header = (Ok block, h')
    /\ wireDecode block fresh_header = (Ok tt, g')
    /\ hasWire (m_wire g') = true
    /\ Block_wire (m_wire g') = encodedOctets g'
    /\ wire_inv g'.
Proof.
  exact (roundtrip_restores_wire_inv sample_header fresh_header
           lp_tlv_ok sample_header_valid eq_refl).
Defined.

Lemma NackHeader_fromBlock_fields_witness :
  (exists block h' g',
     wireEncode sample_header = (Ok block, h')
     /\ NackHeader_fromBlock DUPLICATE 11 12 block = (Ok tt, g')
     /\ same_fields sample_header g')
  /\ exists g',
       NackHeader_fromBlock DUPLICATE 11 12 empty_Nack = (Ok tt, g')
       /\ getReason g' = NONE
       /\ getNames g' = []
       /\ getId g' = 11
       /\ getPrefix g' = 12.
Proof.
  destruct (NackHeader_fromBlock_fields sample_header empty_Nack empty_Nack
              DUPLICATE 11 12) as (Ha & Hb).
  split.
  - exact (Ha lp_tlv_ok sample_header_valid eq_refl).
  - apply Hb; vm_compute; reflexivity.
Defined.

(** A header that decoded the NACK element without sub-elements, and so
    caches it, is given the id 9. *)
Lemma setter_then_wireEncode_is_fresh_witness :
  hasWire (m_wire (snd (wireDecode empty_Nack sample_header))) = true
  /\ exists block h' g',
       wireEncode (setId 9 (snd (wireDecode empty_Nack sample_header)))
       = (Ok block, h')
       /\ Block_wire block
          = encodedOctets (setId 9 (snd (wireDecode empty_Nack sample_header)))
       /\ wireDecode block fresh_header = (Ok tt, g')
       /\ same_fields (setId 9 (snd (wireDecode empty_Nack sample_header))) g'.
Proof.
  split; [reflexivity|].
  apply (setter_then_wireEncode_is_fresh (T := lp_tlv)
           (NC := GenericName.codec)
           (snd (wireDecode empty_Nack sample_header)) fresh_header
           NONE 9 0 [] (setId 9)).
  - right. left. reflexivity.
  - exact lp_tlv_ok.
  - unfold valid_fields. split; [unfold is_int32; cbn; lia|].
    split; [unfold is_uint64; cbn; lia|].
    split; [unfold is_uint64; cbn; lia|].
    split; [apply Forall_nil|vm_compute; reflexivity].
Defined.
